(** * Landing-page generator: a shallow embedding of [scripts/generate_pages.py]

    The script loads leads from a CSV file, filters them against a JSON
    ledger of already generated slugs, renders one HTML page per fresh lead
    (at most [BATCH_SIZE] per run) and rewrites the ledger.

    Modelling conventions.
    - A Python [str] is the list of its Unicode code points ([pystr]).
      Literals of the script are written as Rocq strings and decoded from
      the UTF-8 bytes of this file by [u]; inside such a literal the
      backquote stands for the double quote of the script's literal.
    - [str.lower] is the library's Unicode lowercasing; it is a parameter
      ([lower]) of the renderer and of everything that calls it.
    - A file read by [csv.DictReader] is the list of row dictionaries the
      reader yields; a file read by [json.load] is the value it parses to
      (or bytes that are not UTF-8, or text that is not JSON).
    - Paths are POSIX paths, joined and printed as [pathlib] does; file
      names are encoded as [os.fsencode] does with UTF-8; which file a
      path string names is the system's affair ([locate]).  The page
      files are other files than the CSV file and the ledger.
    - Exceptions are values of [exn]; a function that may raise returns a
      [result].  [main] threads the disk and a log of its effectful calls,
      and takes [ROOT], the clock readings and the outcome of each system
      call from an [Env]. *)

From Stdlib Require Import NArith ZArith String Ascii.
From stdpp Require Import base option list gmap.

Local Open Scope N_scope.
Local Set Warnings "-register-all".

(** ** Strings *)

Definition pystr := list N.

(** Decoder of UTF-8 byte sequences, used for the literals below. *)
Fixpoint utf8_decode (bs : list N) : pystr :=
  match bs with
  | [] => []
  | b :: r1 =>
      if b <? 128 then b :: utf8_decode r1
      else match r1 with
      | [] => []
      | c1 :: r2 =>
          if b <? 224 then ((b - 192) * 64 + (c1 - 128)) :: utf8_decode r2
          else match r2 with
          | [] => []
          | c2 :: r3 =>
              if b <? 240
              then ((b - 224) * 4096 + (c1 - 128) * 64 + (c2 - 128)) :: utf8_decode r3
              else match r3 with
              | [] => []
              | c3 :: r4 =>
                  ((b - 240) * 262144 + (c1 - 128) * 4096 + (c2 - 128) * 64 + (c3 - 128))
                    :: utf8_decode r4
              end
          end
      end
  end.

Definition bytes_of (s : string) : list N :=
  map (fun a => N_of_ascii a) (list_ascii_of_string s).

Definition dquote : N := 34.
Definition backquote : N := 96.

Definition u (s : string) : pystr :=
  map (fun c => if c =? backquote then dquote else c) (utf8_decode (bytes_of s)).

Definition nl : pystr := [10].

(** [str.isspace] on one code point (CPython's [_PyUnicode_IsWhitespace]). *)
Definition is_space (c : N) : bool :=
  ((9 <=? c) && (c <=? 13)) || ((28 <=? c) && (c <=? 32))
  || (c =? 133) || (c =? 160) || (c =? 5760)
  || ((8192 <=? c) && (c <=? 8202))
  || (c =? 8232) || (c =? 8233) || (c =? 8239) || (c =? 8287) || (c =? 12288).

Fixpoint lstrip (s : pystr) : pystr :=
  match s with
  | [] => []
  | c :: r => if is_space c then lstrip r else s
  end.

Definition rstrip (s : pystr) : pystr := rev (lstrip (rev s)).

(** [s.strip()] *)
Definition strip (s : pystr) : pystr := rstrip (lstrip s).

(** [sep.join(items)] *)
Fixpoint join (sep : pystr) (items : list pystr) : pystr :=
  match items with
  | [] => []
  | [x] => x
  | x :: r => x ++ sep ++ join sep r
  end.

(** ** Exceptions *)

Inductive exn : Type :=
  | ValueError (msg : pystr)
  | TypeError
  | KeyError (key : pystr)
  | AttributeError
  | FileNotFoundError
  | JSONDecodeError
  | UnicodeDecodeError
  | UnicodeEncodeError
  | OSError.

Inductive result (A : Type) : Type :=
  | Ok (a : A)
  | Raise (e : exn).
Arguments Ok {A} a.
Arguments Raise {A} e.

Definition rbind {A B} (r : result A) (k : A -> result B) : result B :=
  match r with
  | Ok a => k a
  | Raise e => Raise e
  end.

(** ** Leads *)

Definition BATCH_SIZE : nat := 40.

(** A value of a [csv.DictReader] row: a [str], or [None] where the line
    had fewer cells than the header. *)
Definition cell : Type := option pystr.

Abbreviation Row := (gmap pystr cell).

(** [row.get(field)] *)
Definition row_get (row : Row) (field : pystr) : cell :=
  match row !! field with
  | Some c => c
  | None => None
  end.

(** Truth value of [row.get(field)]: [None] and [''] are falsy. *)
Definition truthy (c : cell) : bool :=
  match c with
  | Some (_ :: _) => true
  | _ => false
  end.

(** [row[field].strip()] *)
Definition row_item_strip (row : Row) (field : pystr) : result pystr :=
  match row !! field with
  | None => Raise (KeyError field)
  | Some None => Raise AttributeError
  | Some (Some s) => Ok (strip s)
  end.

(** [repr] of a list of field names, as the f-string of [from_row] prints it. *)
Definition repr_fields (fields : list pystr) : pystr :=
  u "[" ++ join (u ", ") (map (fun f => u "'" ++ f ++ u "'") fields) ++ u "]".

Module Lead.

Record t : Type := mk {
  slug : pystr;
  business_name : pystr;
  city : pystr;
  service : pystr;
  pain_point : pystr;
  offer : pystr
}.

Definition required_fields : list pystr :=
  [u "slug"; u "business_name"; u "city"; u "service"; u "pain_point"; u "offer"].

Definition missing_of (row : Row) : list pystr :=
  List.filter (fun field => negb (truthy (row_get row field))) required_fields.

Definition from_row (row : Row) : result t :=
  let missing := missing_of row in
  match missing with
  | _ :: _ => Raise (ValueError (u "Missing fields in CSV row: " ++ repr_fields missing))
  | [] =>
      rbind (row_item_strip row (u "slug")) (fun slug =>
      rbind (row_item_strip row (u "business_name")) (fun business_name =>
      rbind (row_item_strip row (u "city")) (fun city =>
      rbind (row_item_strip row (u "service")) (fun service =>
      rbind (row_item_strip row (u "pain_point")) (fun pain_point =>
      rbind (row_item_strip row (u "offer")) (fun offer =>
      Ok (mk slug business_name city service pain_point offer)))))))
  end.

End Lead.

(** [[Lead.from_row(row) for row in reader]]: rows are converted in order
    and the first exception ends the comprehension. *)
Fixpoint from_rows (reader : list Row) : result (list Lead.t) :=
  match reader with
  | [] => Ok []
  | row :: rest =>
      rbind (Lead.from_row row) (fun lead =>
      rbind (from_rows rest) (fun leads => Ok (lead :: leads)))
  end.

(** [load_leads(path)]; [file] is what [path] holds: [None] when there is
    no such file, else the rows the reader yields. *)
Definition load_leads (file : option (list Row)) : result (list Lead.t) :=
  match file with
  | None => Raise FileNotFoundError
  | Some reader => from_rows reader
  end.

(** ** JSON values and the ledger *)

Inductive json : Type :=
  | JNull
  | JBool (b : bool)
  | JNum (literal : pystr)
  | JStr (s : pystr)
  | JArr (items : list json)
  | JObj (members : gmap pystr json).

(** What a JSON file holds: bytes that are not UTF-8, text that is not a
    JSON document (the empty file is such a text), or a document. *)
Inductive json_file : Type :=
  | NotUtf8
  | Malformed
  | Doc (data : json).

(** [for item in v]: a list yields its items, a dict its keys, a string its
    characters; the other values are not iterable. *)
Definition py_iter (v : json) : result (list json) :=
  match v with
  | JArr items => Ok items
  | JObj members => Ok (map (fun kv => JStr (fst kv)) (map_to_list members))
  | JStr s => Ok (map (fun c => JStr [c]) s)
  | JNull | JBool _ | JNum _ => Raise TypeError
  end.

Module GeneratedEntry.

(** The dataclass annotates the three fields as [str]; nothing checks it,
    and [load_generated] stores whatever value the file holds. *)
Record t : Type := mk {
  slug : json;
  created_at : json;
  source : json
}.

Definition to_dict (self : t) : gmap pystr json :=
  {[ u "slug" := slug self;
     u "created_at" := created_at self;
     u "source" := source self ]}.

End GeneratedEntry.

(** [d.get(key, dflt)] *)
Definition dict_get (d : gmap pystr json) (key : pystr) (dflt : json) : json :=
  match d !! key with
  | Some v => v
  | None => dflt
  end.

(** The loop of [load_generated], with [result] as accumulator. *)
Fixpoint load_generated_loop (entries : list json) (result : list GeneratedEntry.t)
  : list GeneratedEntry.t :=
  match entries with
  | [] => result
  | item :: rest =>
      match item with
      | JObj d =>
          match d !! u "slug" with
          | None => load_generated_loop rest result
          | Some slug =>
              load_generated_loop rest
                (result ++ [GeneratedEntry.mk slug
                              (dict_get d (u "created_at") (JStr (u "")))
                              (dict_get d (u "source") (JStr (u "data/leads.csv")))])
          end
      | _ => load_generated_loop rest result
      end
  end.

(** [load_generated(path)]; [file] is what [path] holds. *)
Definition load_generated (file : option json_file) : result (list GeneratedEntry.t) :=
  match file with
  | None => Ok []
  | Some NotUtf8 => Raise UnicodeDecodeError
  | Some Malformed => Raise JSONDecodeError
  | Some (Doc data) =>
      let entries :=
        match data with
        | JObj d => dict_get d (u "generated") (JArr [])
        | _ => data
        end in
      rbind (py_iter entries) (fun items => Ok (load_generated_loop items []))
  end.

(** The [payload] of [save_generated]. *)
Definition payload (entries : list GeneratedEntry.t) : json :=
  JObj {[ u "generated" := JArr (map (fun entry => JObj (GeneratedEntry.to_dict entry)) entries) ]}.

(** ** Clock *)

(** A reading of [datetime.utcnow()]. *)
Record datetime : Type := mk_datetime {
  year : N; month : N; day : N;
  hour : N; minute : N; second : N
}.

(** Decimal digits with leading zeros, as [%d], [%m], [%H], [%M], [%S] print
    them, and as [%Y] prints the years 1000 to 9999. *)
Definition digit (n : N) : N := 48 + n mod 10.
Definition pad2 (n : N) : pystr := [digit (n / 10); digit n].
Definition pad4 (n : N) : pystr := [digit (n / 1000); digit (n / 100); digit (n / 10); digit n].

(** [t.strftime('%d.%m.%Y')] *)
Definition strftime_date (t : datetime) : pystr :=
  pad2 (day t) ++ u "." ++ pad2 (month t) ++ u "." ++ pad4 (year t).

(** [t.strftime(TIMESTAMP_FORMAT)], with [TIMESTAMP_FORMAT = "%Y-%m-%dT%H:%M:%SZ"]. *)
Definition strftime_timestamp (t : datetime) : pystr :=
  pad4 (year t) ++ u "-" ++ pad2 (month t) ++ u "-" ++ pad2 (day t) ++ u "T"
  ++ pad2 (hour t) ++ u ":" ++ pad2 (minute t) ++ u ":" ++ pad2 (second t) ++ u "Z".

(** ** Page renderer *)

Section Renderer.

(** [str.lower] *)
Variable lower : pystr -> pystr.

(** The list [faqs] of [render_faq]. *)
Definition faqs (lead : Lead.t) : list (pystr * pystr) :=
  [ (concat [u "Wie kann "; Lead.business_name lead; u " mehr "; lower (Lead.service lead);
             u "-Anfragen in "; Lead.city lead; u " gewinnen?"],
     concat [u "Wir stellen die Stärken von "; Lead.business_name lead;
             u " heraus, zeigen Referenzen und bauen klare Conversion-Elemente ein, damit Interessenten sofort Kontakt aufnehmen."]);
    (concat [u "Was bedeutet das Angebot `"; Lead.offer lead; u "` konkret?"],
     concat [u "Wir entwickeln eine individuelle Landingpage, die das "; Lead.offer lead;
             u " für "; Lead.business_name lead;
             u " erklärt und Besuchern einen einfachen nächsten Schritt bietet."]);
    (u "Wie schnell geht die Umsetzung?",
     u "In der Regel liefern wir innerhalb weniger Tage eine veröffentlichbare Seite und optimieren anschließend anhand echter Daten.") ].

Definition faq_item (qa : pystr * pystr) : pystr :=
  concat [u "<div class=`faq-item`>"; nl;
          u "  <h3>"; fst qa; u "</h3>"; nl;
          u "  <p>"; snd qa; u "</p>"; nl;
          u "</div>"].

Definition render_faq (lead : Lead.t) : pystr :=
  join nl (map faq_item (faqs lead)).

Definition tagline (lead : Lead.t) : pystr :=
  concat [Lead.service lead; u " in "; Lead.city lead; u ": "; Lead.offer lead].

Definition hero (lead : Lead.t) : pystr :=
  concat [u "<section class=`hero`>"; nl;
          u "  <h1>"; Lead.business_name lead; u " – "; Lead.service lead; u " in ";
            Lead.city lead; u "</h1>"; nl;
          u "  <p class=`tagline`>"; tagline lead; u "</p>"; nl;
          u "  <a class=`cta` href=`mailto:hello@example.com?subject=";
            Lead.business_name lead; u "%20Landingpage`>Jetzt Beratung sichern</a>"; nl;
          u "</section>"].

Definition pain_section (lead : Lead.t) : pystr :=
  concat [u "<section class=`pain`>"; nl;
          u "  <h2>Wir lösen: "; Lead.pain_point lead; u "</h2>"; nl;
          u "  <p>Viele "; Lead.service lead; u "-Teams in "; Lead.city lead;
            u " verlieren täglich potenzielle Kunden, weil ihre Website nicht überzeugt. ";
            Lead.business_name lead;
            u " bekommt eine Seite, die Vertrauen aufbaut, Fragen beantwortet und immer auf einen klaren CTA führt.</p>"; nl;
          u "  <ul>"; nl;
          u "    <li>Storytelling rund um "; Lead.business_name lead; u "</li>"; nl;
          u "    <li>Lokale Beweise aus "; Lead.city lead; u "</li>"; nl;
          u "    <li>Schlanke Kontaktwege für mehr Abschlüsse</li>"; nl;
          u "  </ul>"; nl;
          u "</section>"].

Definition faq_section (lead : Lead.t) : pystr :=
  concat [u "<section class=`faq`>"; nl; u "  <h2>Häufige Fragen</h2>"; nl;
          u "  "; render_faq lead; nl; u "</section>"].

(** [now] is the reading of [datetime.utcnow()] inside the f-string. *)
Definition footer (now : datetime) (lead : Lead.t) : pystr :=
  concat [u "<footer>"; nl;
          u "  <p>Seite für "; Lead.business_name lead; u " erstellt am ";
            strftime_date now; u ".</p>"; nl;
          u "  <a class=`cta secondary` href=`mailto:hello@example.com?subject=";
            Lead.business_name lead; u "%20Projekt`>Kostenloses Gespräch anfragen</a>"; nl;
          u "</footer>"].

Definition style : pystr :=
  concat [nl;
    u "    <style>"; nl;
    u "      :root { font-family: 'Inter', Arial, sans-serif; color: #111827; background: #f9fafb; }"; nl;
    u "      body { max-width: 900px; margin: 0 auto; padding: 24px; line-height: 1.6; }"; nl;
    u "      h1, h2, h3 { color: #0f172a; margin-bottom: 8px; }"; nl;
    u "      .hero { background: linear-gradient(120deg, #e0f2fe, #ecfeff); padding: 32px; border-radius: 16px; margin-bottom: 24px; }"; nl;
    u "      .tagline { font-size: 1.1rem; margin-bottom: 16px; }"; nl;
    u "      .cta { display: inline-block; padding: 12px 18px; background: #2563eb; color: #fff; border-radius: 12px; text-decoration: none; font-weight: 600; }"; nl;
    u "      .cta.secondary { background: #0ea5e9; }"; nl;
    u "      .pain, .faq { background: #fff; border-radius: 16px; padding: 24px; box-shadow: 0 10px 30px rgba(15, 23, 42, 0.05); margin-bottom: 24px; }"; nl;
    u "      ul { padding-left: 20px; }"; nl;
    u "      .faq-item { margin-bottom: 14px; }"; nl;
    u "      footer { display: flex; justify-content: space-between; align-items: center; background: #f1f5f9; padding: 16px; border-radius: 12px; }"; nl;
    u "      @media (max-width: 640px) { footer { flex-direction: column; align-items: flex-start; gap: 12px; } }"; nl;
    u "    </style>"; nl;
    u "    "].

Definition render_page (now : datetime) (lead : Lead.t) : pystr :=
  concat [u "<!DOCTYPE html>"; nl; u "<html lang=`de`>"; nl; u "<head>"; nl;
          u "  <meta charset=`UTF-8` />"; nl;
          u "  <meta name=`viewport` content=`width=device-width, initial-scale=1.0` />"; nl;
          u "  <title>"; Lead.business_name lead; u " – "; Lead.service lead; u " in ";
            Lead.city lead; u "</title>"; nl;
          u "  "; style; nl; u "</head>"; nl; u "<body>"; nl;
          u "  "; hero lead; nl;
          u "  "; pain_section lead; nl;
          u "  "; faq_section lead; nl;
          u "  "; footer now lead; nl;
          u "</body>"; nl; u "</html>"; nl].

End Renderer.

(** ** Paths *)

(** [s.split(sep)] for a one-character separator. *)
Fixpoint split_on (sep : N) (s : pystr) : list pystr :=
  match s with
  | [] => [[]]
  | c :: r =>
      if c =? sep then [] :: split_on sep r
      else match split_on sep r with
           | first :: others => (c :: first) :: others
           | [] => [[c]]
           end
  end.

Definition slash : N := 47.

(** A pure POSIX path as [pathlib] keeps it: the root (empty, ["/"] or
    ["//"]) and the components, none of them empty or ["."]. *)
Record path : Type := mk_path {
  anchor : pystr;
  parts : list pystr
}.

(** The root of a path string: two leading slashes, and only two, are
    kept as they are. *)
Definition path_root (s : pystr) : pystr :=
  match s with
  | c1 :: r1 =>
      if c1 =? slash then
        match r1 with
        | c2 :: r2 =>
            if c2 =? slash then
              match r2 with
              | c3 :: _ => if c3 =? slash then [slash] else [slash; slash]
              | [] => [slash; slash]
              end
            else [slash]
        | [] => [slash]
        end
      else []
  | [] => []
  end.

Definition kept_part (c : pystr) : bool :=
  negb (bool_decide (c = [])) && negb (bool_decide (c = u ".")).

(** [PurePosixPath(s)] *)
Definition parse_path (s : pystr) : path :=
  mk_path (path_root s) (List.filter kept_part (split_on slash s)).

(** [base / segment]: an absolute segment replaces the base. *)
Definition joinpath (base : path) (segment : pystr) : path :=
  let p := parse_path segment in
  match anchor p with
  | [] => mk_path (anchor base) (parts base ++ parts p)
  | _ :: _ => p
  end.

(** [str(p)] *)
Definition path_str (p : path) : pystr :=
  match anchor p, parts p with
  | [], [] => u "."
  | _, _ => anchor p ++ join (u "/") (parts p)
  end.

(** [p.relative_to(other)] for an absolute [other]; [None] stands for the
    [ValueError] of [pathlib]. *)
Definition relative_to (p other : path) : option path :=
  if bool_decide (anchor p = anchor other)
     && bool_decide (take (length (parts other)) (parts p) = parts other)
  then Some (mk_path [] (drop (length (parts other)) (parts p)))
  else None.

(** ** Disk, log and environment *)

(** The files the script touches: the CSV file, the ledger, and the other
    regular files, each under the location the system resolves its path
    to; and whether the pages directory exists. *)
Record Disk : Type := mk_disk {
  leads_csv : option (list Row);        (* data/leads.csv; None: no such file *)
  generated_json : option json_file;    (* data/generated.json; None: no such file *)
  pages_dir : bool;                     (* pages/ exists *)
  files : gmap pystr pystr              (* location -> text, for the other files *)
}.

(** The effectful calls of a run, in the order they are made. *)
Inductive event : Type :=
  | Printed (line : pystr)      (* print(line) *)
  | MadeDir (dir : pystr)       (* dir.mkdir(parents=True, exist_ok=True) *)
  | WroteText (path : pystr).   (* path.write_text(...), whatever its outcome *)

Record World : Type := mk_world {
  disk : Disk;
  log : list event
}.

(** What the system does with a [write_text]: it goes through, or a call
    raises [e] and leaves the file as it was ([residue = None]) or with
    the content [residue]. *)
Inductive io_result (C : Type) : Type :=
  | IoOk
  | IoFail (e : exn) (residue : option C).
Arguments IoOk {C}.
Arguments IoFail {C} e residue.

Record Env : Type := mk_env {
  root_parts : list pystr;              (* the components of ROOT, an absolute path *)
  locate : pystr -> pystr;              (* the file a path string names for the system *)
  subpath_error : pystr -> pystr;       (* the message of relative_to's ValueError for a path *)
  utcnow_main : datetime;               (* the reading that gives now_str *)
  utcnow_page : nat -> datetime;        (* the reading inside render_page, per batch index *)
  mkdir_pages_ok : bool;
  page_io : nat -> io_result pystr;     (* the write of the page, per batch index *)
  mkdir_data_ok : bool;
  ledger_io : io_result json_file
}.

(** [ROOT] and [OUTPUT_DIR = ROOT / "pages"] *)
Definition ROOT (env : Env) : path := mk_path [slash] (root_parts env).

Definition OUTPUT_DIR (env : Env) : path := joinpath (ROOT env) (u "pages").

(** [str(p.relative_to(ROOT))] *)
Definition relative_to_root (env : Env) (p : path) : result pystr :=
  match relative_to p (ROOT env) with
  | Some shown => Ok (path_str shown)
  | None => Raise (ValueError (subpath_error env (path_str p)))
  end.

(** State and exception monad of the script. *)
Definition M (A : Type) : Type := World -> result A * World.

Definition ret {A} (a : A) : M A := fun w => (Ok a, w).

Definition bind {A B} (k : A -> M B) (m : M A) : M B :=
  fun w =>
    match m w with
    | (Ok a, w') => k a w'
    | (Raise e, w') => (Raise e, w')
    end.

#[global] Instance M_ret : MRet M := @ret.
#[global] Instance M_bind : MBind M := @bind.

Definition raise {A} (e : exn) : M A := fun w => (Raise e, w).

Definition lift {A} (r : result A) : M A := fun w => (r, w).

Definition read {A} (f : Disk -> result A) : M A := fun w => (f (disk w), w).

Definition emit (e : event) : M unit :=
  fun w => (Ok tt, mk_world (disk w) (log w ++ [e])).

Definition modify_disk (f : Disk -> Disk) : M unit :=
  fun w => (Ok tt, mk_world (f (disk w)) (log w)).

Definition print (line : pystr) : M unit := emit (Printed line).

Definition set_files (texts : gmap pystr pystr) (d : Disk) : Disk :=
  mk_disk (leads_csv d) (generated_json d) (pages_dir d) texts.

Definition set_generated (file : json_file) (d : Disk) : Disk :=
  mk_disk (leads_csv d) (Some file) (pages_dir d) (files d).

Definition set_pages_dir (d : Disk) : Disk :=
  mk_disk (leads_csv d) (generated_json d) true (files d).

(** A code point UTF-8 can encode: not a surrogate. *)
Definition is_scalar_value (c : N) : bool :=
  (c <? 55296) || ((57343 <? c) && (c <=? 1114111)).

(** [s.encode("utf-8")] does not raise. *)
Definition encodable (s : pystr) : bool := forallb is_scalar_value s.

(** The text [json.dumps(v, ensure_ascii=False)] can be encoded: no string
    of [v], key or value, holds a surrogate. *)
Fixpoint json_encodable (v : json) : bool :=
  match v with
  | JNull | JBool _ | JNum _ => true
  | JStr s => encodable s
  | JArr items => forallb json_encodable items
  | JObj members =>
      map_fold (fun key item rest => encodable key && json_encodable item && rest)
        true members
  end.

(** A code point of a file name: the file system encoding, UTF-8 with the
    [surrogateescape] handler, takes the surrogates that stand for a byte
    (U+DC80 to U+DCFF) and no other. *)
Definition is_file_name_char (c : N) : bool :=
  is_scalar_value c || ((56448 <=? c) && (c <=? 56575)).

(** [os.fsencode(s)] does not raise. *)
Definition fs_encodable (s : pystr) : bool := forallb is_file_name_char s.

Definition has_nul (s : pystr) : bool := existsb (N.eqb 0) s.

(** How a [write_text] ends: the text is stored, or the call raises [e]
    and leaves the file untouched ([None]) or with the content [remains]. *)
Inductive attempt (C : Type) : Type :=
  | Stored
  | Failed (e : exn) (remains : option C).
Arguments Stored {C}.
Arguments Failed {C} e remains.

(** [path.write_text(text, encoding=`utf-8`)]: [open] refuses a path it
    cannot encode, then one with a NUL character; then the system may
    fail; then the file is open and empty, and encoding the text raises
    when it holds a surrogate.  [encodes] tells whether the text can be
    encoded, [emptied] is the empty file. *)
Definition write_attempt {C} (outcome : io_result C) (path : pystr) (encodes : bool)
    (emptied : C) : attempt C :=
  if negb (fs_encodable path) then Failed UnicodeEncodeError None
  else if has_nul path then Failed (ValueError (u "embedded null byte")) None
  else match outcome with
       | IoFail e residue => Failed e residue
       | IoOk => if encodes then Stored else Failed UnicodeEncodeError (Some emptied)
       end.

(** [OUTPUT_DIR.mkdir(parents=True, exist_ok=True)] *)
Definition mkdir_pages (ok : bool) : M unit :=
  (emit (MadeDir (u "pages"));;
   if ok then modify_disk set_pages_dir else raise OSError).

(** [output_file.write_text(text, encoding="utf-8")]; [path] is
    [str(output_file)]. *)
Definition write_page (env : Env) (outcome : io_result pystr) (path text : pystr) : M unit :=
  (emit (WroteText path);;
   d ← read (fun d => Ok d);
   match write_attempt outcome path (encodable text) [] with
   | Stored => modify_disk (set_files (<[locate env path := text]> (files d)))
   | Failed e None => raise e
   | Failed e (Some remains) =>
       modify_disk (set_files (<[locate env path := remains]> (files d)));; raise e
   end).

(** [save_generated(GENERATED_PATH, entries)] *)
Definition save_generated (mkdir_ok : bool) (outcome : io_result json_file)
    (entries : list GeneratedEntry.t) : M unit :=
  (let payload := payload entries in
   emit (MadeDir (u "data"));;
   (if mkdir_ok then ret tt else raise OSError);;
   emit (WroteText (u "data/generated.json"));;
   match write_attempt outcome (u "data/generated.json") (json_encodable payload)
           Malformed with
   | Stored => modify_disk (set_generated (Doc payload))
   | Failed e None => raise e
   | Failed e (Some remains) => modify_disk (set_generated remains);; raise e
   end).

(** ** Batch orchestrator *)

(** A value that can be a member of a Python set. *)
Definition hashable (v : json) : bool :=
  match v with
  | JArr _ | JObj _ => false
  | _ => true
  end.

(** [{entry.slug for entry in generated_entries}]; the set is kept as the
    list of the values put into it. *)
Definition slug_set (generated_entries : list GeneratedEntry.t) : result (list json) :=
  let slugs := map GeneratedEntry.slug generated_entries in
  if forallb hashable slugs then Ok slugs else Raise TypeError.

(** [s == v] for a string [s]. *)
Definition str_eq (s : pystr) (v : json) : bool :=
  match v with
  | JStr s' => bool_decide (s = s')
  | _ => false
  end.

(** [s in generated_slugs] *)
Definition set_mem (s : pystr) (generated_slugs : list json) : bool :=
  existsb (str_eq s) generated_slugs.

(** Lines 171-174 of [main]: the pair [(fresh_leads, batch)]. *)
Definition select_batch (leads : list Lead.t) (generated_entries : list GeneratedEntry.t)
  : result (list Lead.t * list Lead.t) :=
  rbind (slug_set generated_entries) (fun generated_slugs =>
    let fresh_leads :=
      List.filter (fun lead => negb (set_mem (Lead.slug lead) generated_slugs)) leads in
    let batch := take BATCH_SIZE fresh_leads in
    Ok (fresh_leads, batch)).

(** The ledger entry appended for a lead; [str(CSV_PATH.relative_to(ROOT))]
    is [data/leads.csv]. *)
Definition new_entry (now_str : pystr) (lead : Lead.t) : GeneratedEntry.t :=
  GeneratedEntry.mk (JStr (Lead.slug lead)) (JStr now_str) (JStr (u "data/leads.csv")).

Section Orchestrator.

Variable lower : pystr -> pystr.
Variable env : Env.

(** The [for lead in batch] loop; [k] is the index of [lead] in the batch. *)
Fixpoint generate_loop (now_str : pystr) (k : nat) (batch : list Lead.t)
    (generated_entries : list GeneratedEntry.t) : M (list GeneratedEntry.t) :=
  match batch with
  | [] => ret generated_entries
  | lead :: rest =>
      (let output_file := joinpath (OUTPUT_DIR env) (Lead.slug lead ++ u ".html") in
       write_page env (page_io env k) (path_str output_file)
         (render_page lower (utcnow_page env k) lead);;
       let generated_entries := generated_entries ++ [new_entry now_str lead] in
       shown ← lift (relative_to_root env output_file);
       print (u "Generated " ++ shown);;
       generate_loop now_str (S k) rest generated_entries)
  end.

Definition main : M unit :=
  (leads ← read (fun d => load_leads (leads_csv d));
   generated_entries ← read (fun d => load_generated (generated_json d));
   selected ← lift (select_batch leads generated_entries);
   let batch := snd selected in
   match batch with
   | [] => print (u "No new leads to generate.")
   | _ :: _ =>
       mkdir_pages (mkdir_pages_ok env);;
       let now_str := strftime_timestamp (utcnow_main env) in
       generated_entries ← generate_loop now_str 0 batch generated_entries;
       save_generated (mkdir_data_ok env) (ledger_io env) generated_entries;;
       print (u "Saved log to data/generated.json")
   end).

End Orchestrator.

(** ** Specification-side vocabulary *)

(** The string a row holds under [field] (empty when it holds none). *)
Definition field_value (row : Row) (field : pystr) : pystr :=
  match row !! field with
  | Some (Some s) => s
  | _ => []
  end.

(** The lead of a row, every cell trimmed. *)
Definition trimmed_lead (row : Row) : Lead.t :=
  Lead.mk (strip (field_value row (u "slug")))
          (strip (field_value row (u "business_name")))
          (strip (field_value row (u "city")))
          (strip (field_value row (u "service")))
          (strip (field_value row (u "pain_point")))
          (strip (field_value row (u "offer"))).

(** [row.get(field)] is falsy: the key is absent, or maps to [None] or to
    the empty string. *)
Definition falsy_in (row : Row) (field : pystr) : Prop :=
  row !! field = None \/ row !! field = Some None \/ row !! field = Some (Some []).

(** The six required fields of a lead are all non-empty. *)
Definition fields_nonempty (lead : Lead.t) : Prop :=
  Lead.slug lead <> [] /\ Lead.business_name lead <> [] /\ Lead.city lead <> []
  /\ Lead.service lead <> [] /\ Lead.pain_point lead <> [] /\ Lead.offer lead <> [].

(** [getattr(lead, field)] for the six field names. *)
Definition attr (lead : Lead.t) (field : pystr) : pystr :=
  if bool_decide (field = u "slug") then Lead.slug lead
  else if bool_decide (field = u "business_name") then Lead.business_name lead
  else if bool_decide (field = u "city") then Lead.city lead
  else if bool_decide (field = u "service") then Lead.service lead
  else if bool_decide (field = u "pain_point") then Lead.pain_point lead
  else if bool_decide (field = u "offer") then Lead.offer lead
  else [].

(** A row whose city is a single blank. *)
Definition blank_city_row : Row :=
  {[ u "slug" := Some (u "acme-plumbing"); u "business_name" := Some (u "Acme Plumbing");
     u "city" := Some (u " "); u "service" := Some (u "Klempnerei");
     u "pain_point" := Some (u "Verlorene Anfragen");
     u "offer" := Some (u "Kostenlose Erstberatung") ]}.

(** The ledger entry an item of the file stands for, if any: the item must
    be an object with a [slug] key. *)
Definition entry_of_item (item : json) : option GeneratedEntry.t :=
  match item with
  | JObj d =>
      match d !! u "slug" with
      | Some slug =>
          Some (GeneratedEntry.mk slug
                  (default (JStr []) (d !! u "created_at"))
                  (default (JStr (u "data/leads.csv")) (d !! u "source")))
      | None => None
      end
  | _ => None
  end.

(** The bare-array form of a ledger. *)
Definition legacy_payload (entries : list GeneratedEntry.t) : json :=
  JArr (map (fun entry => JObj (GeneratedEntry.to_dict entry)) entries).

(** The slug of [lead] appears in an entry of the ledger. *)
Definition in_ledger (generated_entries : list GeneratedEntry.t) (lead : Lead.t) : Prop :=
  Exists (fun entry => GeneratedEntry.slug entry = JStr (Lead.slug lead)) generated_entries.

#[global] Instance json_eq_str_dec (v : json) (s : pystr) : Decision (v = JStr s).
Proof.
  destruct v as [| | |s'| |]; try (right; discriminate).
  destruct (decide (s' = s)) as [->|Hne]; [by left|].
  right. intros [= Heq]. by apply Hne.
Defined.

#[global] Instance in_ledger_dec generated_entries lead :
  Decision (in_ledger generated_entries lead).
Proof. unfold in_ledger. apply _. Defined.

(** The leads whose slug appears in no ledger entry, in their order. *)
Definition fresh_spec (leads : list Lead.t) (generated_entries : list GeneratedEntry.t)
  : list Lead.t :=
  filter (fun lead => ~ in_ledger generated_entries lead) leads.

(** Every slug of the ledger can be put into a set. *)
Definition slugs_hashable (generated_entries : list GeneratedEntry.t) : bool :=
  forallb hashable (map GeneratedEntry.slug generated_entries).

(** Leads and ledger entries named by a one-letter slug. *)
Definition lead_of_slug (slug : pystr) : Lead.t :=
  Lead.mk slug (u "Acme Plumbing") (u "Berlin") (u "Klempnerei")
    (u "Verlorene Anfragen") (u "Kostenlose Erstberatung").

Definition entry_of_slug (slug : json) : GeneratedEntry.t :=
  GeneratedEntry.mk slug (JStr (u "2024-03-07T01:02:03Z")) (JStr (u "data/leads.csv")).

(** [part] occurs in [text] as it is. *)
Definition contains (text part : pystr) : Prop :=
  exists before after, text = before ++ part ++ after.

(** The [parts] occur in [text] one after the other, without overlap. *)
Fixpoint in_order (text : pystr) (parts : list pystr) : Prop :=
  match parts with
  | [] => True
  | part :: later =>
      exists before after, text = before ++ part ++ after /\ in_order after later
  end.

(** Two clock readings on the same UTC day. *)
Definition same_date (t1 t2 : datetime) : Prop :=
  year t1 = year t2 /\ month t1 = month t2 /\ day t1 = day t2.

(** Two readings of one day, and a lead with markup in its fields. *)
Definition early : datetime := mk_datetime 2024 3 7 1 2 3.
Definition late : datetime := mk_datetime 2024 3 7 23 59 59.
Definition markup_lead : Lead.t :=
  Lead.mk (u "a-b") (u "A & <b>B</b>") (u "K`ln") (u "Bau") (u "zu <wenig>") (u "50% & mehr").

(** The path of the page of a lead, [OUTPUT_DIR / f"{lead.slug}.html"], its
    string, and the file this string names. *)
Definition output_file (env : Env) (lead : Lead.t) : path :=
  joinpath (OUTPUT_DIR env) (Lead.slug lead ++ u ".html").

Definition page_path (env : Env) (lead : Lead.t) : pystr := path_str (output_file env lead).

Definition page_loc (env : Env) (lead : Lead.t) : pystr := locate env (page_path env lead).

(** The path of the ledger, as the log has it. *)
Definition ledger_path : pystr := u "data/generated.json".

(** How the pass of the loop for one lead ends: the page is written and
    the line [shown] printed; or the write raises; or the page is written
    and [relative_to] raises. *)
Inductive page_status : Type :=
  | PageDone (shown : pystr)
  | PageWriteFailed (e : exn) (remains : option pystr)
  | PagePrintFailed (e : exn).

Definition page_step (lower : pystr -> pystr) (env : Env) (k : nat) (lead : Lead.t)
  : page_status :=
  match write_attempt (page_io env k) (page_path env lead)
          (encodable (render_page lower (utcnow_page env k) lead)) [] with
  | Failed e remains => PageWriteFailed e remains
  | Stored =>
      match relative_to_root env (output_file env lead) with
      | Ok shown => PageDone shown
      | Raise e => PagePrintFailed e
      end
  end.

(** The passes for the leads of [batch], the first being pass number [k]
    of the run, all end with the page written and its line printed. *)
Fixpoint pages_done (lower : pystr -> pystr) (env : Env) (k : nat) (batch : list Lead.t)
  : bool :=
  match batch with
  | [] => true
  | lead :: rest =>
      match page_step lower env k lead with
      | PageDone _ => pages_done lower env (S k) rest
      | _ => false
      end
  end.

(** The calls made for the leads of a batch whose passes all went through. *)
Definition page_events (env : Env) (batch : list Lead.t) : list event :=
  flat_map (fun lead =>
              WroteText (page_path env lead)
                :: match relative_to_root env (output_file env lead) with
                   | Ok shown => [Printed (u "Generated " ++ shown)]
                   | Raise _ => []
                   end) batch.

(** The files after the pages of [batch] were written, the first of them
    being page number [k] of the run. *)
Fixpoint written (lower : pystr -> pystr) (env : Env) (k : nat) (batch : list Lead.t)
    (texts : gmap pystr pystr) : gmap pystr pystr :=
  match batch with
  | [] => texts
  | lead :: rest =>
      written lower env (S k) rest
        (<[page_loc env lead := render_page lower (utcnow_page env k) lead]> texts)
  end.

(** What a failed write leaves of the files. *)
Definition after_failed_write (remains : option pystr) (loc : pystr)
    (texts : gmap pystr pystr) : gmap pystr pystr :=
  match remains with
  | None => texts
  | Some partial => <[loc := partial]> texts
  end.

(** The disk once the pages directory is there, with the ledger file and
    the other files replaced. *)
Definition disk_with (d : Disk) (ledger : option json_file) (texts : gmap pystr pystr) : Disk :=
  mk_disk (leads_csv d) ledger true texts.

(** What a failed write leaves of the ledger file. *)
Definition ledger_after_failed_write (remains : option json_file) (old : option json_file)
  : option json_file :=
  match remains with
  | None => old
  | Some partial => Some partial
  end.

(** The ledger a run with this batch saves. *)
Definition saved_entries (env : Env) (generated_entries : list GeneratedEntry.t)
    (batch : list Lead.t) : list GeneratedEntry.t :=
  generated_entries ++ map (new_entry (strftime_timestamp (utcnow_main env))) batch.

(** A row whose cells give [lead_of_slug slug]. *)
Definition row_of_slug (slug : pystr) : Row :=
  {[ u "slug" := Some slug; u "business_name" := Some (u "Acme Plumbing");
     u "city" := Some (u "Berlin"); u "service" := Some (u "Klempnerei");
     u "pain_point" := Some (u "Verlorene Anfragen");
     u "offer" := Some (u "Kostenlose Erstberatung") ]}.

(** A world with a CSV file, maybe a ledger, no pages directory, no other
    file and an empty log. *)
Definition world_of (rows : list Row) (ledger : option json_file) : World :=
  mk_world (mk_disk (Some rows) ledger false ∅) [].

(** The message of the [ValueError] that [relative_to] raises for the path
    [p] when [ROOT] is [/srv/landing]. *)
Definition not_in_subpath (p : pystr) : pystr :=
  concat [u "'"; p; u "' is not in the subpath of '/srv/landing'";
          u " OR one path is relative and the other is absolute."].

(** An environment with [ROOT = /srv/landing], in which a path string names
    the file of that name and every call succeeds; one in which the write
    of page number [n] (counted from 0) fails after five characters; and
    the one of these in which it is the second page. *)
Definition quiet_env : Env :=
  mk_env [u "srv"; u "landing"] (fun p => p)
    not_in_subpath
    early (fun _ => late) true (fun _ => IoOk) true IoOk.

Definition failing_at (n : nat) : Env :=
  mk_env [u "srv"; u "landing"] (fun p => p)
    not_in_subpath
    early (fun _ => late) true
    (fun k => if Nat.eqb k n then IoFail OSError (Some (u "<!DOC")) else IoOk) true IoOk.

Definition failing_env : Env := failing_at 1.

(** The end-to-end scenario of the specification: one lead, no ledger. *)
Definition first_run : result unit * World :=
  main (fun s => s) quiet_env (world_of [row_of_slug (u "acme-plumbing")] None).

(** The calls a run made: what it added to the log. *)
Definition new_events (w w' : World) : list event := drop (length (log w)) (log w').

(** The outcomes of a run with a non-empty batch. *)
Inductive batch_outcome (lower : pystr -> pystr) (env : Env) (w : World)
    (generated_entries : list GeneratedEntry.t) (batch : list Lead.t)
  : result unit -> World -> Prop :=
  | pages_mkdir_failed :
      mkdir_pages_ok env = false ->
      batch_outcome lower env w generated_entries batch (Raise OSError)
        (mk_world (disk w) (log w ++ [MadeDir (u "pages")]))
  | page_write_failed (n : nat) (bad : Lead.t) (e : exn) (remains : option pystr) :
      mkdir_pages_ok env = true ->
      batch !! n = Some bad ->
      pages_done lower env 0 (take n batch) = true ->
      page_step lower env n bad = PageWriteFailed e remains ->
      batch_outcome lower env w generated_entries batch (Raise e)
        (mk_world
           (disk_with (disk w) (generated_json (disk w))
              (after_failed_write remains (page_loc env bad)
                 (written lower env 0 (take n batch) (files (disk w)))))
           (log w ++ MadeDir (u "pages") :: page_events env (take n batch)
                  ++ [WroteText (page_path env bad)]))
  | page_print_failed (n : nat) (bad : Lead.t) (e : exn) :
      mkdir_pages_ok env = true ->
      batch !! n = Some bad ->
      pages_done lower env 0 (take n batch) = true ->
      page_step lower env n bad = PagePrintFailed e ->
      batch_outcome lower env w generated_entries batch (Raise e)
        (mk_world
           (disk_with (disk w) (generated_json (disk w))
              (written lower env 0 (take (S n) batch) (files (disk w))))
           (log w ++ MadeDir (u "pages") :: page_events env (take n batch)
                  ++ [WroteText (page_path env bad)]))
  | data_mkdir_failed :
      mkdir_pages_ok env = true ->
      pages_done lower env 0 batch = true ->
      mkdir_data_ok env = false ->
      batch_outcome lower env w generated_entries batch (Raise OSError)
        (mk_world
           (disk_with (disk w) (generated_json (disk w))
              (written lower env 0 batch (files (disk w))))
           (log w ++ MadeDir (u "pages") :: page_events env batch ++ [MadeDir (u "data")]))
  | ledger_write_failed (e : exn) (remains : option json_file) :
      mkdir_pages_ok env = true ->
      pages_done lower env 0 batch = true ->
      mkdir_data_ok env = true ->
      write_attempt (ledger_io env) ledger_path
        (json_encodable (payload (saved_entries env generated_entries batch))) Malformed
      = Failed e remains ->
      batch_outcome lower env w generated_entries batch (Raise e)
        (mk_world
           (disk_with (disk w)
              (ledger_after_failed_write remains (generated_json (disk w)))
              (written lower env 0 batch (files (disk w))))
           (log w ++ MadeDir (u "pages") :: page_events env batch
                  ++ [MadeDir (u "data"); WroteText ledger_path]))
  | run_completed :
      mkdir_pages_ok env = true ->
      pages_done lower env 0 batch = true ->
      mkdir_data_ok env = true ->
      write_attempt (ledger_io env) ledger_path
        (json_encodable (payload (saved_entries env generated_entries batch))) Malformed
      = Stored ->
      batch_outcome lower env w generated_entries batch (Ok tt)
        (mk_world
           (disk_with (disk w)
              (Some (Doc (payload (saved_entries env generated_entries batch))))
              (written lower env 0 batch (files (disk w))))
           (log w ++ MadeDir (u "pages") :: page_events env batch
                  ++ [MadeDir (u "data"); WroteText ledger_path;
                      Printed (u "Saved log to data/generated.json")])).

(** A JSON value that [for item in v] cannot iterate. *)
Definition is_scalar (v : json) : bool :=
  match v with
  | JNull | JBool _ | JNum _ => true
  | _ => false
  end.

(** The string begins, or ends, with a whitespace character. *)
Definition starts_blank (s : pystr) : bool :=
  match s with
  | c :: _ => is_space c
  | [] => false
  end.

Definition ends_blank (s : pystr) : bool := starts_blank (rev s).

(** A row with a column the loader does not know. *)
Definition row_with_note : Row := <[u "note" := Some (u " call back ")]> (row_of_slug (u "A")).

(** The block of one question and its answer in the FAQ section. *)
Definition faq_block (question answer : pystr) : pystr :=
  concat [u "<div class=`faq-item`>"; nl;
          u "  <h3>"; question; u "</h3>"; nl;
          u "  <p>"; answer; u "</p>"; nl;
          u "</div>"].

(** The three values of a ledger entry can be encoded. *)
Definition entry_encodable (entry : GeneratedEntry.t) : bool :=
  json_encodable (GeneratedEntry.slug entry)
  && json_encodable (GeneratedEntry.created_at entry)
  && json_encodable (GeneratedEntry.source entry).

(** A ledger entry whose slug is a lone surrogate, as [json.load] gives it
    for the escape of U+D800. *)
Definition surrogate_entry : GeneratedEntry.t :=
  GeneratedEntry.mk (JStr [55296]) (JStr []) (JStr (u "data/leads.csv")).

(** * Properties *)

(** ** Lead loader *)

Lemma lstrip_blank (s : pystr) : forallb is_space s = true -> lstrip s = [].
Proof.
  induction s as [|c r IH]; cbn [forallb lstrip]; [done|].
  intros [Hc Hr]%andb_prop. rewrite Hc. by apply IH.
Qed.

Lemma strip_blank (s : pystr) : forallb is_space s = true -> strip s = [].
Proof.
  intros H. unfold strip, rstrip. by rewrite (lstrip_blank s H).
Qed.

Lemma truthy_falsy_in (row : Row) (field : pystr) :
  truthy (row_get row field) = false <-> falsy_in row field.
Proof.
  unfold falsy_in, row_get.
  destruct (row !! field) as [[[|c r]|]|]; cbn; split; intros H; try done; auto;
    destruct H as [H|[H|H]]; done.
Qed.

Lemma missing_of_spec (row : Row) (field : pystr) :
  In field (Lead.missing_of row) <-> In field Lead.required_fields /\ falsy_in row field.
Proof.
  unfold Lead.missing_of. rewrite filter_In, negb_true_iff, truthy_falsy_in. done.
Qed.

Lemma missing_of_nil (row : Row) :
  Lead.missing_of row = [] ->
  forall field, In field Lead.required_fields -> truthy (row_get row field) = true.
Proof.
  intros Hnil field Hin.
  destruct (truthy (row_get row field)) eqn:Ht; [done|].
  assert (In field (Lead.missing_of row)) as Hm.
  { unfold Lead.missing_of. apply filter_In. by rewrite Ht. }
  rewrite Hnil in Hm. destruct Hm.
Qed.

Lemma row_item_strip_truthy (row : Row) (field : pystr) :
  truthy (row_get row field) = true ->
  row_item_strip row field = Ok (strip (field_value row field)).
Proof.
  unfold row_get, row_item_strip, field_value.
  destruct (row !! field) as [[[|c r]|]|]; cbn; done.
Qed.

Lemma from_row_valid (row : Row) :
  Lead.missing_of row = [] -> Lead.from_row row = Ok (trimmed_lead row).
Proof.
  intros Hnil. pose proof (missing_of_nil row Hnil) as Hall.
  unfold Lead.from_row. rewrite Hnil.
  rewrite !row_item_strip_truthy; [done|..];
    apply Hall; unfold Lead.required_fields; cbn [In]; tauto.
Qed.

Lemma from_row_invalid (row : Row) :
  Lead.missing_of row <> [] ->
  Lead.from_row row =
    Raise (ValueError (u "Missing fields in CSV row: " ++ repr_fields (Lead.missing_of row))).
Proof.
  intros Hne. unfold Lead.from_row.
  destruct (Lead.missing_of row); done.
Qed.

Lemma from_rows_valid (rows : list Row) :
  Forall (fun row => Lead.missing_of row = []) rows ->
  from_rows rows = Ok (map trimmed_lead rows).
Proof.
  induction 1 as [|row rest Hrow _ IH]; cbn [from_rows map]; [done|].
  by rewrite (from_row_valid row Hrow), IH.
Qed.

Lemma from_rows_invalid (good : list Row) (bad : Row) (rest : list Row) :
  Forall (fun row => Lead.missing_of row = []) good ->
  Lead.missing_of bad <> [] ->
  from_rows (good ++ bad :: rest) =
    Raise (ValueError (u "Missing fields in CSV row: " ++ repr_fields (Lead.missing_of bad))).
Proof.
  intros Hgood Hbad.
  induction Hgood as [|row good' Hrow _ IH]; cbn [from_rows app].
  - by rewrite (from_row_invalid bad Hbad).
  - by rewrite (from_row_valid row Hrow), IH.
Qed.

Lemma attr_trimmed_lead (row : Row) (field : pystr) :
  In field Lead.required_fields ->
  attr (trimmed_lead row) field = strip (field_value row field).
Proof.
  unfold Lead.required_fields. cbn [In].
  intros [<-|[<-|[<-|[<-|[<-|[<-|[]]]]]]]; reflexivity.
Qed.

(** C10: [Lead.from_row] raises its validation error exactly when some
    required field is absent from the raw row or maps to a falsy value
    ([None] or the empty string) before trimming; the fields it names are
    exactly those.  A row with no such field is accepted and gives the
    trimmed cells, so a required cell that holds only whitespace is
    accepted and the lead carries the empty string for that field. *)
Theorem from_row_checks_before_trimming :
  (forall row : Row,
      (exists msg, Lead.from_row row = Raise (ValueError msg)) <->
      (exists field, In field Lead.required_fields /\ falsy_in row field))
  /\ (forall (row : Row) (field : pystr),
        In field (Lead.missing_of row) <->
        In field Lead.required_fields /\ falsy_in row field)
  /\ (forall row : Row,
        Lead.missing_of row = [] -> Lead.from_row row = Ok (trimmed_lead row))
  /\ (forall (row : Row) (field s : pystr),
        Lead.missing_of row = [] ->
        In field Lead.required_fields ->
        row !! field = Some (Some s) ->
        forallb is_space s = true ->
        exists lead, Lead.from_row row = Ok lead /\ attr lead field = []).
Proof.
  split; [|split; [|split]].
  - intros row. split.
    + intros [msg Hraise].
      destruct (Lead.missing_of row) as [|field rest] eqn:Hm.
      * rewrite (from_row_valid row Hm) in Hraise. discriminate.
      * exists field. apply missing_of_spec. rewrite Hm. by left.
    + intros [field Hfield%missing_of_spec].
      eexists. apply from_row_invalid. intros Hnil. rewrite Hnil in Hfield. destruct Hfield.
  - apply missing_of_spec.
  - apply from_row_valid.
  - intros row field s Hnil Hin Hlook Hblank.
    exists (trimmed_lead row). split; [by apply from_row_valid|].
    rewrite (attr_trimmed_lead row field Hin).
    unfold field_value. rewrite Hlook. by apply strip_blank.
Qed.

Lemma from_row_checks_before_trimming_witness :
  exists lead, Lead.from_row blank_city_row = Ok lead /\ attr lead (u "city") = [].
Proof.
  apply (proj2 (proj2 (proj2 from_row_checks_before_trimming))
           blank_city_row (u "city") (u " ")).
  - vm_compute. reflexivity.
  - vm_compute. tauto.
  - vm_compute. reflexivity.
  - vm_compute. reflexivity.
Defined.

(** C3, as the code has it: [load_leads] returns one lead per row, in row
    order, each field being the trimmed cell, when no row has a required
    field that is absent or empty before trimming (a cell of blanks passes
    and gives an empty field); otherwise the first row with such a field
    raises [ValueError], whose message lists exactly its absent or empty
    required fields, and nothing is returned. *)
Theorem load_leads_trims_and_validates_raw_cells :
  (forall rows : list Row,
      Forall (fun row => Lead.missing_of row = []) rows ->
      load_leads (Some rows) = Ok (map trimmed_lead rows))
  /\ (forall (good : list Row) (bad : Row) (rest : list Row),
        Forall (fun row => Lead.missing_of row = []) good ->
        Lead.missing_of bad <> [] ->
        load_leads (Some (good ++ bad :: rest)) =
          Raise (ValueError (u "Missing fields in CSV row: "
                             ++ repr_fields (Lead.missing_of bad))))
  /\ (forall (row : Row) (field : pystr),
        In field (Lead.missing_of row) <->
        In field Lead.required_fields /\ falsy_in row field).
Proof.
  split; [|split].
  - intros rows Hrows. cbn [load_leads]. by apply from_rows_valid.
  - intros good bad rest Hgood Hbad. cbn [load_leads]. by apply from_rows_invalid.
  - apply missing_of_spec.
Qed.

Lemma load_leads_trims_and_validates_raw_cells_witness :
  load_leads (Some [blank_city_row]) = Ok [trimmed_lead blank_city_row]
  /\ load_leads (Some ([blank_city_row] ++ delete (u "offer") blank_city_row :: [blank_city_row])) =
       Raise (ValueError (u "Missing fields in CSV row: ['offer']")).
Proof.
  split.
  - apply (proj1 load_leads_trims_and_validates_raw_cells [blank_city_row]).
    constructor; [vm_compute; reflexivity | constructor].
  - rewrite (proj1 (proj2 load_leads_trims_and_validates_raw_cells)
               [blank_city_row] (delete (u "offer") blank_city_row) [blank_city_row]).
    + vm_compute. reflexivity.
    + constructor; [vm_compute; reflexivity | constructor].
    + vm_compute. discriminate.
Defined.

(** C3 as stated fails: a row whose city is one blank is loaded, and the
    lead it gives has an empty city. *)
Lemma load_leads_accepts_blank_cell :
  load_leads (Some [blank_city_row]) =
    Ok [Lead.mk (u "acme-plumbing") (u "Acme Plumbing") [] (u "Klempnerei")
          (u "Verlorene Anfragen") (u "Kostenlose Erstberatung")]
  /\ ~ (forall (rows : list Row) (leads : list Lead.t),
          load_leads (Some rows) = Ok leads -> Forall fields_nonempty leads).
Proof.
  assert (load_leads (Some [blank_city_row]) =
    Ok [Lead.mk (u "acme-plumbing") (u "Acme Plumbing") [] (u "Klempnerei")
          (u "Verlorene Anfragen") (u "Kostenlose Erstberatung")]) as Hload
    by (vm_compute; reflexivity).
  split; [exact Hload|].
  intros Hclaim. specialize (Hclaim _ _ Hload).
  inversion Hclaim as [|lead rest Hlead _]; subst.
  destruct Hlead as (_ & _ & Hcity & _). by apply Hcity.
Qed.

(** ** Ledger store *)

Lemma load_generated_loop_omap (items : list json) (acc : list GeneratedEntry.t) :
  load_generated_loop items acc = acc ++ omap entry_of_item items.
Proof.
  revert acc. induction items as [|item rest IH]; intros acc; cbn [load_generated_loop omap list_omap].
  - by rewrite app_nil_r.
  - destruct item as [| | | | |d]; cbn [entry_of_item]; try apply IH.
    destruct (d !! u "slug") as [slug|]; [|apply IH].
    rewrite IH, <- app_assoc. reflexivity.
Qed.

Lemma load_generated_array (items : list json) :
  load_generated (Some (Doc (JArr items))) = Ok (omap entry_of_item items).
Proof. cbn. by rewrite load_generated_loop_omap. Qed.

Lemma load_generated_object (d : gmap pystr json) (items : list json) :
  d !! u "generated" = Some (JArr items) ->
  load_generated (Some (Doc (JObj d))) = Ok (omap entry_of_item items).
Proof.
  intros Hd. cbn [load_generated]. unfold dict_get. rewrite Hd.
  cbn. by rewrite load_generated_loop_omap.
Qed.

Lemma entry_of_to_dict (entry : GeneratedEntry.t) :
  entry_of_item (JObj (GeneratedEntry.to_dict entry)) = Some entry.
Proof. destruct entry. reflexivity. Qed.

Lemma omap_entry_of_to_dict (entries : list GeneratedEntry.t) :
  omap entry_of_item (map (fun entry => JObj (GeneratedEntry.to_dict entry)) entries) = entries.
Proof.
  induction entries as [|entry rest IH]; [done|].
  cbn [map omap list_omap]. by rewrite entry_of_to_dict, IH.
Qed.

(** C7: [load_generated] returns the empty list when there is no ledger
    file; it reads the entries from a top-level array as well as from the
    [generated] key of a top-level object; it keeps, in order, the items
    that are objects with a [slug] key and skips the others; a kept entry
    gets the empty string for an absent [created_at] and the default
    [data/leads.csv] for an absent [source]. *)
Theorem load_generated_tolerant :
  load_generated None = Ok []
  /\ (forall items : list json,
        load_generated (Some (Doc (JArr items))) = Ok (omap entry_of_item items))
  /\ (forall (d : gmap pystr json) (items : list json),
        d !! u "generated" = Some (JArr items) ->
        load_generated (Some (Doc (JObj d))) = Ok (omap entry_of_item items))
  /\ (forall item : json, (forall d, item <> JObj d) -> entry_of_item item = None)
  /\ (forall d : gmap pystr json, d !! u "slug" = None -> entry_of_item (JObj d) = None)
  /\ (forall (d : gmap pystr json) (slug : json),
        d !! u "slug" = Some slug ->
        exists created_at source,
          entry_of_item (JObj d) = Some (GeneratedEntry.mk slug created_at source)
          /\ (d !! u "created_at" = None -> created_at = JStr [])
          /\ (forall v, d !! u "created_at" = Some v -> created_at = v)
          /\ (d !! u "source" = None -> source = JStr (u "data/leads.csv"))
          /\ (forall v, d !! u "source" = Some v -> source = v)).
Proof.
  split; [reflexivity|].
  split; [apply load_generated_array|].
  split; [apply load_generated_object|].
  split; [|split].
  - intros item Hitem. destruct item as [| | | | |d]; try reflexivity.
    by destruct (Hitem d).
  - intros d Hd. cbn [entry_of_item]. by rewrite Hd.
  - intros d slug Hd. cbn [entry_of_item]. rewrite Hd.
    eexists _, _. split; [reflexivity|].
    repeat split.
    + by intros ->.
    + by intros v ->.
    + by intros ->.
    + by intros v ->.
Qed.

Lemma load_generated_tolerant_witness :
  load_generated
    (Some (Doc (JObj {[ u "generated" :=
                          JArr [JStr (u "x"); JObj {[ u "slug" := JStr (u "a") ]};
                                JObj {[ u "created_at" := JStr (u "t") ]}] ]})))
  = Ok [GeneratedEntry.mk (JStr (u "a")) (JStr []) (JStr (u "data/leads.csv"))]
  /\ entry_of_item (JObj {[ u "created_at" := JStr (u "t") ]}) = None
  /\ exists created_at source,
       entry_of_item (JObj {[ u "slug" := JStr (u "a") ]}) =
         Some (GeneratedEntry.mk (JStr (u "a")) created_at source).
Proof.
  split; [|split].
  - rewrite (proj1 (proj2 (proj2 load_generated_tolerant))
               {[ u "generated" :=
                    JArr [JStr (u "x"); JObj {[ u "slug" := JStr (u "a") ]};
                          JObj {[ u "created_at" := JStr (u "t") ]}] ]}
               [JStr (u "x"); JObj {[ u "slug" := JStr (u "a") ]};
                JObj {[ u "created_at" := JStr (u "t") ]}]).
    + vm_compute. reflexivity.
    + vm_compute. reflexivity.
  - apply (proj1 (proj2 (proj2 (proj2 (proj2 load_generated_tolerant))))).
    vm_compute. reflexivity.
  - destruct (proj2 (proj2 (proj2 (proj2 (proj2 load_generated_tolerant))))
                {[ u "slug" := JStr (u "a") ]} (JStr (u "a")))
      as (created_at & source & Hentry & _).
    + vm_compute. reflexivity.
    + exists created_at, source. exact Hentry.
Defined.

(** ** Batch selection *)

Lemma slug_set_hashable (generated_entries : list GeneratedEntry.t) :
  slugs_hashable generated_entries = true ->
  slug_set generated_entries = Ok (map GeneratedEntry.slug generated_entries).
Proof.
  unfold slugs_hashable, slug_set. intros H.
  by rewrite H.
Qed.

Lemma slug_set_unhashable (generated_entries : list GeneratedEntry.t) :
  slugs_hashable generated_entries = false ->
  slug_set generated_entries = Raise TypeError.
Proof.
  unfold slugs_hashable, slug_set. intros H.
  by rewrite H.
Qed.

Lemma str_eq_spec (s : pystr) (v : json) : str_eq s v = true <-> v = JStr s.
Proof.
  destruct v as [| | |s'| |]; cbn; try (split; intros; discriminate).
  rewrite bool_decide_eq_true. split; [by intros ->|by intros [= ->]].
Qed.

Lemma set_mem_in_ledger (generated_entries : list GeneratedEntry.t) (lead : Lead.t) :
  set_mem (Lead.slug lead) (map GeneratedEntry.slug generated_entries) = true
  <-> in_ledger generated_entries lead.
Proof.
  unfold set_mem, in_ledger. rewrite existsb_exists, Exists_exists. split.
  - intros (v & (entry & <- & Hentry)%in_map_iff & Hv%str_eq_spec).
    exists entry. split; [by apply list_elem_of_In|done].
  - intros (entry & Hentry%list_elem_of_In & Hslug).
    exists (GeneratedEntry.slug entry). split; [by apply in_map|by apply str_eq_spec].
Qed.

Lemma filter_fresh (leads : list Lead.t) (generated_entries : list GeneratedEntry.t) :
  List.filter
    (fun lead => negb (set_mem (Lead.slug lead) (map GeneratedEntry.slug generated_entries)))
    leads
  = fresh_spec leads generated_entries.
Proof.
  unfold fresh_spec. induction leads as [|lead rest IH]; [done|].
  cbn [List.filter]. rewrite filter_cons, IH.
  destruct (set_mem _ _) eqn:Hmem; cbn [negb].
  - apply set_mem_in_ledger in Hmem. by rewrite decide_False by tauto.
  - rewrite decide_True; [done|].
    intros Hin%set_mem_in_ledger. congruence.
Qed.

Lemma select_batch_hashable (leads : list Lead.t) (generated_entries : list GeneratedEntry.t) :
  slugs_hashable generated_entries = true ->
  select_batch leads generated_entries =
    Ok (fresh_spec leads generated_entries,
        take BATCH_SIZE (fresh_spec leads generated_entries)).
Proof.
  intros H. unfold select_batch. rewrite (slug_set_hashable _ H). cbn [rbind].
  by rewrite filter_fresh.
Qed.

Lemma in_ledger_two (ea eb : GeneratedEntry.t) (lead : Lead.t) :
  in_ledger [ea; eb] lead <->
  GeneratedEntry.slug ea = JStr (Lead.slug lead) \/ GeneratedEntry.slug eb = JStr (Lead.slug lead).
Proof.
  unfold in_ledger. rewrite !Exists_cons, Exists_nil. tauto.
Qed.

(** C1, as the code has it: when every slug of the loaded ledger is a
    hashable value (a string, as the ledger format has it, or a number, a
    boolean or null), the fresh leads are exactly the leads whose slug
    appears in no ledger entry, in CSV order, and the batch is the first
    [BATCH_SIZE] = 40 of them; with ledger slugs A, B and leads A, B, C, D
    the fresh leads are C, D. *)
Theorem select_batch_fresh_prefix :
  (forall (leads : list Lead.t) (generated_entries : list GeneratedEntry.t),
      slugs_hashable generated_entries = true ->
      select_batch leads generated_entries =
        Ok (fresh_spec leads generated_entries,
            take BATCH_SIZE (fresh_spec leads generated_entries)))
  /\ BATCH_SIZE = 40%nat
  /\ (forall (la lb lc ld : Lead.t) (ea eb : GeneratedEntry.t),
        GeneratedEntry.slug ea = JStr (Lead.slug la) ->
        GeneratedEntry.slug eb = JStr (Lead.slug lb) ->
        Lead.slug lc <> Lead.slug la -> Lead.slug lc <> Lead.slug lb ->
        Lead.slug ld <> Lead.slug la -> Lead.slug ld <> Lead.slug lb ->
        select_batch [la; lb; lc; ld] [ea; eb] = Ok ([lc; ld], [lc; ld])).
Proof.
  split; [apply select_batch_hashable|]. split; [reflexivity|].
  intros la lb lc ld ea eb Ha Hb Hca Hcb Hda Hdb.
  rewrite select_batch_hashable by (cbn; by rewrite Ha, Hb).
  unfold fresh_spec. rewrite !filter_cons, filter_nil.
  rewrite (decide_False (P := ~ in_ledger [ea; eb] la))
    by (rewrite in_ledger_two; tauto).
  rewrite (decide_False (P := ~ in_ledger [ea; eb] lb))
    by (rewrite in_ledger_two; tauto).
  rewrite (decide_True (P := ~ in_ledger [ea; eb] lc))
    by (rewrite in_ledger_two, Ha, Hb; intros [[=]|[=]]; congruence).
  rewrite (decide_True (P := ~ in_ledger [ea; eb] ld))
    by (rewrite in_ledger_two, Ha, Hb; intros [[=]|[=]]; congruence).
  reflexivity.
Qed.

Lemma select_batch_fresh_prefix_witness :
  select_batch
    [lead_of_slug (u "A"); lead_of_slug (u "B"); lead_of_slug (u "C"); lead_of_slug (u "D")]
    [entry_of_slug (JStr (u "A")); entry_of_slug (JStr (u "B"))]
  = Ok ([lead_of_slug (u "C"); lead_of_slug (u "D")],
        [lead_of_slug (u "C"); lead_of_slug (u "D")]).
Proof.
  apply (proj2 (proj2 select_batch_fresh_prefix)
           (lead_of_slug (u "A")) (lead_of_slug (u "B"))
           (lead_of_slug (u "C")) (lead_of_slug (u "D"))
           (entry_of_slug (JStr (u "A"))) (entry_of_slug (JStr (u "B"))));
    vm_compute; first [reflexivity | discriminate].
Defined.

(** C1 as stated fails: a ledger file may hold an array under [slug];
    [load_generated] keeps the entry, and building the set of slugs then
    raises [TypeError], so no fresh list is computed, although the lead's
    slug appears in no entry. *)
Lemma select_batch_raises_on_array_slug :
  load_generated (Some (Doc (JArr [JObj {[ u "slug" := JArr [] ]}]))) =
    Ok [GeneratedEntry.mk (JArr []) (JStr []) (JStr (u "data/leads.csv"))]
  /\ select_batch [lead_of_slug (u "C")]
       [GeneratedEntry.mk (JArr []) (JStr []) (JStr (u "data/leads.csv"))] = Raise TypeError
  /\ fresh_spec [lead_of_slug (u "C")]
       [GeneratedEntry.mk (JArr []) (JStr []) (JStr (u "data/leads.csv"))] = [lead_of_slug (u "C")]
  /\ ~ (forall (leads : list Lead.t) (generated_entries : list GeneratedEntry.t),
          select_batch leads generated_entries =
            Ok (fresh_spec leads generated_entries,
                take BATCH_SIZE (fresh_spec leads generated_entries))).
Proof.
  split; [vm_compute; reflexivity|].
  split; [vm_compute; reflexivity|].
  split; [vm_compute; reflexivity|].
  intros Hclaim.
  specialize (Hclaim [lead_of_slug (u "C")]
                [GeneratedEntry.mk (JArr []) (JStr []) (JStr (u "data/leads.csv"))]).
  vm_compute in Hclaim. discriminate.
Qed.

(** ** Page renderer *)

Lemma contains_segments (segs mid : list pystr) (i : nat) :
  take (length mid) (drop i segs) = mid -> contains (concat segs) (concat mid).
Proof.
  intros Hmid. exists (concat (take i segs)), (concat (drop (length mid) (drop i segs))).
  rewrite <- (take_drop i segs) at 1.
  rewrite <- (take_drop (length mid) (drop i segs)) at 1.
  by rewrite !concat_app, Hmid.
Qed.

Lemma contains_segment (segs : list pystr) (part : pystr) (i : nat) :
  segs !! i = Some part -> contains (concat segs) part.
Proof.
  intros Hi. exists (concat (take i segs)), (concat (drop (S i) segs)).
  rewrite <- (take_drop_middle segs i part Hi) at 1.
  by rewrite concat_app.
Qed.

Lemma contains_trans (text mid part : pystr) :
  contains text mid -> contains mid part -> contains text part.
Proof.
  intros (a & b & ->) (c & d & ->). exists (a ++ c), (d ++ b).
  by rewrite <- !app_assoc.
Qed.

Lemma in_order_segment (segs : list pystr) (part : pystr) (later : list pystr) (i : nat) :
  segs !! i = Some part ->
  in_order (concat (drop (S i) segs)) later ->
  in_order (concat segs) (part :: later).
Proof.
  intros Hi Hlater. exists (concat (take i segs)), (concat (drop (S i) segs)).
  split; [|done].
  rewrite <- (take_drop_middle segs i part Hi) at 1.
  by rewrite concat_app.
Qed.

Lemma join_three (sep a b c : pystr) :
  join sep [a; b; c] = concat [a; sep; b; sep; c].
Proof. cbn [join concat]. by rewrite app_nil_r. Qed.

Lemma render_faq_three (lower : pystr -> pystr) (lead : Lead.t) :
  exists qa1 qa2 qa3,
    faqs lower lead = [qa1; qa2; qa3]
    /\ render_faq lower lead =
         concat [faq_item qa1; nl; faq_item qa2; nl; faq_item qa3].
Proof.
  eexists _, _, _. split; [reflexivity|].
  unfold render_faq, faqs. cbn [map]. apply join_three.
Qed.

Lemma faq_item_question (qa : pystr * pystr) : contains (faq_item qa) (fst qa).
Proof. by apply (contains_segment _ _ 3). Qed.

Lemma render_faq_contains (lower : pystr -> pystr) (lead : Lead.t) :
  contains (render_faq lower lead) (Lead.business_name lead)
  /\ contains (render_faq lower lead) (lower (Lead.service lead))
  /\ contains (render_faq lower lead) (Lead.city lead)
  /\ contains (render_faq lower lead) (Lead.offer lead).
Proof.
  unfold render_faq, faqs. cbn [map]. rewrite join_three.
  repeat split.
  - eapply contains_trans; [by apply (contains_segment _ _ 0)|].
    eapply contains_trans; [apply faq_item_question|]. by apply (contains_segment _ _ 1).
  - eapply contains_trans; [by apply (contains_segment _ _ 0)|].
    eapply contains_trans; [apply faq_item_question|]. by apply (contains_segment _ _ 3).
  - eapply contains_trans; [by apply (contains_segment _ _ 0)|].
    eapply contains_trans; [apply faq_item_question|]. by apply (contains_segment _ _ 5).
  - eapply contains_trans; [by apply (contains_segment _ _ 2)|].
    eapply contains_trans; [apply faq_item_question|]. by apply (contains_segment _ _ 1).
Qed.

Lemma render_page_in_order (lower : pystr -> pystr) (now : datetime) (lead : Lead.t) :
  in_order (render_page lower now lead)
    [u "<!DOCTYPE html>"; u "<head>"; style; u "</head>"; u "<body>";
     hero lead; pain_section lead; faq_section lower lead; footer now lead;
     u "</body>"; u "</html>"].
Proof.
  unfold render_page.
  apply (in_order_segment _ _ _ 0); [reflexivity|]. cbn [drop].
  apply (in_order_segment _ _ _ 3); [reflexivity|]. cbn [drop].
  apply (in_order_segment _ _ _ 14); [reflexivity|]. cbn [drop].
  apply (in_order_segment _ _ _ 1); [reflexivity|]. cbn [drop].
  apply (in_order_segment _ _ _ 1); [reflexivity|]. cbn [drop].
  apply (in_order_segment _ _ _ 2); [reflexivity|]. cbn [drop].
  apply (in_order_segment _ _ _ 2); [reflexivity|]. cbn [drop].
  apply (in_order_segment _ _ _ 2); [reflexivity|]. cbn [drop].
  apply (in_order_segment _ _ _ 2); [reflexivity|]. cbn [drop].
  apply (in_order_segment _ _ _ 1); [reflexivity|]. cbn [drop].
  apply (in_order_segment _ _ _ 1); [reflexivity|]. cbn [drop].
  exact I.
Qed.

Lemma render_page_verbatim (lower : pystr -> pystr) (now : datetime) (lead : Lead.t) :
  contains (render_page lower now lead) (Lead.business_name lead)
  /\ contains (render_page lower now lead) (Lead.service lead)
  /\ contains (render_page lower now lead) (Lead.city lead)
  /\ contains (render_page lower now lead) (Lead.pain_point lead)
  /\ contains (render_page lower now lead) (Lead.offer lead).
Proof.
  repeat split.
  - by apply (contains_segment _ _ 11).
  - by apply (contains_segment _ _ 13).
  - by apply (contains_segment _ _ 15).
  - eapply contains_trans; [by apply (contains_segment _ _ 29)|].
    by apply (contains_segment _ _ 3).
  - eapply contains_trans; [by apply (contains_segment _ _ 26)|].
    eapply contains_trans; [by apply (contains_segment _ _ 11)|].
    by apply (contains_segment _ _ 4).
Qed.

(** C8: for every lead, [render_page] gives a complete HTML document:
    doctype, head with the inline stylesheet, body with the hero, the
    pain-point section, the FAQ section and the footer in this order.  The
    hero has the heading with business name, service and city, the tagline
    with service, city and offer, and the mail link whose subject starts
    with the business name; the pain section has the headline with the pain
    point and the list of three benefits, two of them with the business
    name and the city; the FAQ section holds exactly three question and
    answer blocks built from business name, lowercased service, city and
    offer, each with its question as heading and its answer as paragraph,
    in the wording given below; the footer has the generation date and the
    second mail link.
    Each of the five lead fields occurs in the page exactly as given,
    whatever characters it holds: nothing is escaped. *)
Theorem render_page_document (lower : pystr -> pystr) (now : datetime) (lead : Lead.t) :
  in_order (render_page lower now lead)
    [u "<!DOCTYPE html>"; u "<head>"; style; u "</head>"; u "<body>";
     hero lead; pain_section lead; faq_section lower lead; footer now lead;
     u "</body>"; u "</html>"]
  /\ contains (hero lead)
       (concat [u "  <h1>"; Lead.business_name lead; u " – "; Lead.service lead; u " in ";
                Lead.city lead; u "</h1>"])
  /\ contains (hero lead)
       (concat [u "  <p class=`tagline`>";
                concat [Lead.service lead; u " in "; Lead.city lead; u ": "; Lead.offer lead];
                u "</p>"])
  /\ contains (hero lead)
       (concat [u "  <a class=`cta` href=`mailto:hello@example.com?subject=";
                Lead.business_name lead;
                u "%20Landingpage`>Jetzt Beratung sichern</a>"])
  /\ contains (pain_section lead)
       (concat [u "  <h2>Wir lösen: "; Lead.pain_point lead; u "</h2>"])
  /\ contains (pain_section lead)
       (concat [u "  <ul>"; nl;
                u "    <li>Storytelling rund um "; Lead.business_name lead; u "</li>"; nl;
                u "    <li>Lokale Beweise aus "; Lead.city lead; u "</li>"; nl;
                u "    <li>Schlanke Kontaktwege für mehr Abschlüsse</li>"; nl;
                u "  </ul>"])
  /\ contains (faq_section lower lead) (render_faq lower lead)
  /\ (exists qa1 qa2 qa3,
        faqs lower lead = [qa1; qa2; qa3]
        /\ render_faq lower lead =
             concat [faq_item qa1; nl; faq_item qa2; nl; faq_item qa3])
  /\ (contains (render_faq lower lead) (Lead.business_name lead)
      /\ contains (render_faq lower lead) (lower (Lead.service lead))
      /\ contains (render_faq lower lead) (Lead.city lead)
      /\ contains (render_faq lower lead) (Lead.offer lead))
  /\ contains (footer now lead)
       (concat [u "  <p>Seite für "; Lead.business_name lead; u " erstellt am ";
                strftime_date now; u ".</p>"])
  /\ contains (footer now lead)
       (concat [u "  <a class=`cta secondary` href=`mailto:hello@example.com?subject=";
                Lead.business_name lead;
                u "%20Projekt`>Kostenloses Gespräch anfragen</a>"])
  /\ (contains (render_page lower now lead) (Lead.business_name lead)
      /\ contains (render_page lower now lead) (Lead.service lead)
      /\ contains (render_page lower now lead) (Lead.city lead)
      /\ contains (render_page lower now lead) (Lead.pain_point lead)
      /\ contains (render_page lower now lead) (Lead.offer lead))
  /\ render_faq lower lead =
       join nl
         [faq_block
            (concat [u "Wie kann "; Lead.business_name lead; u " mehr ";
                     lower (Lead.service lead); u "-Anfragen in "; Lead.city lead;
                     u " gewinnen?"])
            (concat [u "Wir stellen die Stärken von "; Lead.business_name lead;
                     u " heraus, zeigen Referenzen und bauen klare Conversion-Elemente ein, damit Interessenten sofort Kontakt aufnehmen."]);
          faq_block
            (concat [u "Was bedeutet das Angebot `"; Lead.offer lead; u "` konkret?"])
            (concat [u "Wir entwickeln eine individuelle Landingpage, die das ";
                     Lead.offer lead; u " für "; Lead.business_name lead;
                     u " erklärt und Besuchern einen einfachen nächsten Schritt bietet."]);
          faq_block
            (u "Wie schnell geht die Umsetzung?")
            (u "In der Regel liefern wir innerhalb weniger Tage eine veröffentlichbare Seite und optimieren anschließend anhand echter Daten.")]
  /\ contains (render_page lower now lead) (render_faq lower lead).
Proof.
  split; [apply render_page_in_order|].
  split; [by apply (contains_segments _ _ 2)|].
  split; [by apply (contains_segments _ _ 10)|].
  split; [by apply (contains_segments _ _ 14)|].
  split; [by apply (contains_segments _ _ 2)|].
  split; [by apply (contains_segments _ _ 14)|].
  split; [by apply (contains_segment _ _ 5)|].
  split; [apply render_faq_three|].
  split; [apply render_faq_contains|].
  split; [by apply (contains_segments _ _ 2)|].
  split; [by apply (contains_segments _ _ 8)|].
  split; [apply render_page_verbatim|].
  split; [unfold render_faq, faqs, faq_item, faq_block; cbn [map fst snd]; reflexivity|].
  eapply contains_trans; [by apply (contains_segment _ _ 32)|].
  by apply (contains_segment _ _ 5).
Qed.

(** C9: [render_page] is a function of the lead and of the UTC date alone:
    on equal leads, two clock readings of the same day (whatever the time
    of day) give the same page. *)
Theorem render_page_deterministic (lower : pystr -> pystr) (lead lead' : Lead.t)
    (t t' : datetime) :
  lead = lead' -> same_date t t' ->
  render_page lower t lead = render_page lower t' lead'.
Proof.
  intros <- (Hyear & Hmonth & Hday).
  unfold render_page, footer, strftime_date.
  by rewrite Hyear, Hmonth, Hday.
Qed.

Lemma render_page_deterministic_witness :
  render_page (fun s => s) early markup_lead = render_page (fun s => s) late markup_lead.
Proof.
  apply (render_page_deterministic (fun s => s) markup_lead markup_lead early late).
  - reflexivity.
  - vm_compute. tauto.
Defined.

(** ** Batch orchestrator *)

Lemma bind_Ok {A B} (m : M A) (k : A -> M B) (w w' : World) (a : A) :
  m w = (Ok a, w') -> (m ≫= k) w = k a w'.
Proof. intros H. unfold mbind, M_bind, bind. by rewrite H. Qed.

Lemma bind_Raise {A B} (m : M A) (k : A -> M B) (w w' : World) (e : exn) :
  m w = (Raise e, w') -> (m ≫= k) w = (Raise e, w').
Proof. intros H. unfold mbind, M_bind, bind. by rewrite H. Qed.

Lemma set_files_same (d : Disk) : set_files (files d) d = d.
Proof. by destruct d. Qed.

Lemma write_page_stored (env : Env) (outcome : io_result pystr) (path text : pystr)
    (w : World) :
  write_attempt outcome path (encodable text) [] = Stored ->
  write_page env outcome path text w =
    (Ok tt, mk_world (set_files (<[locate env path := text]> (files (disk w))) (disk w))
                     (log w ++ [WroteText path])).
Proof.
  intros Hattempt. unfold write_page.
  rewrite (bind_Ok (emit _) _ w _ tt eq_refl).
  rewrite (bind_Ok (read _) _ _ _ _ eq_refl).
  by rewrite Hattempt.
Qed.

Lemma write_page_failed (env : Env) (outcome : io_result pystr) (path text : pystr)
    (w : World) (e : exn) (remains : option pystr) :
  write_attempt outcome path (encodable text) [] = Failed e remains ->
  write_page env outcome path text w =
    (Raise e,
     mk_world (set_files (after_failed_write remains (locate env path) (files (disk w)))
                 (disk w))
              (log w ++ [WroteText path])).
Proof.
  intros Hattempt. unfold write_page.
  rewrite (bind_Ok (emit _) _ w _ tt eq_refl).
  rewrite (bind_Ok (read _) _ _ _ _ eq_refl).
  rewrite Hattempt. destruct remains as [partial|].
  - by rewrite (bind_Ok (modify_disk _) _ _ _ tt eq_refl).
  - unfold raise. cbn [after_failed_write disk log]. by rewrite set_files_same.
Qed.

Lemma page_step_done (lower : pystr -> pystr) (env : Env) (k : nat) (lead : Lead.t)
    (shown : pystr) :
  page_step lower env k lead = PageDone shown ->
  write_attempt (page_io env k) (page_path env lead)
    (encodable (render_page lower (utcnow_page env k) lead)) [] = Stored
  /\ relative_to_root env (output_file env lead) = Ok shown.
Proof.
  unfold page_step. destruct (write_attempt _ _ _ _); [|discriminate].
  destruct (relative_to_root _ _); [|discriminate]. by intros [= ->].
Qed.

Lemma page_step_write_failed (lower : pystr -> pystr) (env : Env) (k : nat)
    (lead : Lead.t) (e : exn) (remains : option pystr) :
  page_step lower env k lead = PageWriteFailed e remains ->
  write_attempt (page_io env k) (page_path env lead)
    (encodable (render_page lower (utcnow_page env k) lead)) [] = Failed e remains.
Proof.
  unfold page_step. destruct (write_attempt _ _ _ _).
  - destruct (relative_to_root _ _); discriminate.
  - by intros [= -> ->].
Qed.

Lemma page_step_print_failed (lower : pystr -> pystr) (env : Env) (k : nat)
    (lead : Lead.t) (e : exn) :
  page_step lower env k lead = PagePrintFailed e ->
  write_attempt (page_io env k) (page_path env lead)
    (encodable (render_page lower (utcnow_page env k) lead)) [] = Stored
  /\ relative_to_root env (output_file env lead) = Raise e.
Proof.
  unfold page_step. destruct (write_attempt _ _ _ _); [|discriminate].
  destruct (relative_to_root _ _); [discriminate|]. by intros [= ->].
Qed.

Lemma page_events_cons_done (env : Env) (lead : Lead.t) (rest : list Lead.t)
    (shown : pystr) :
  relative_to_root env (output_file env lead) = Ok shown ->
  page_events env (lead :: rest) =
    WroteText (page_path env lead) :: Printed (u "Generated " ++ shown)
      :: page_events env rest.
Proof. intros Hshown. unfold page_events. cbn [flat_map]. by rewrite Hshown. Qed.

Lemma page_cases (lower : pystr -> pystr) (env : Env) (batch : list Lead.t) :
  forall k : nat,
    pages_done lower env k batch = true
    \/ exists n bad,
         batch !! n = Some bad
         /\ pages_done lower env k (take n batch) = true
         /\ ((exists e remains, page_step lower env (k + n) bad = PageWriteFailed e remains)
             \/ (exists e, page_step lower env (k + n) bad = PagePrintFailed e)).
Proof.
  induction batch as [|lead rest IH]; intros k; [by left|].
  destruct (page_step lower env k lead) as [shown|e remains|e] eqn:Hstep.
  - destruct (IH (S k)) as [Hdone|(n & bad & Hbad & Hdone & Hfail)].
    + left. cbn [pages_done]. by rewrite Hstep.
    + right. exists (S n), bad. split; [done|]. split.
      * cbn [take pages_done]. by rewrite Hstep.
      * by replace (k + S n)%nat with (S k + n)%nat by lia.
  - right. exists 0%nat, lead. rewrite Nat.add_0_r. split; [done|]. split; [done|].
    left. by exists e, remains.
  - right. exists 0%nat, lead. rewrite Nat.add_0_r. split; [done|]. split; [done|].
    right. by exists e.
Qed.

Section Loop.

Variable lower : pystr -> pystr.
Variable env : Env.
Variable now_str : pystr.

Lemma generate_loop_cons (k : nat) (lead : Lead.t) (rest : list Lead.t)
    (acc : list GeneratedEntry.t) :
  generate_loop lower env now_str k (lead :: rest) acc =
    (write_page env (page_io env k) (page_path env lead)
       (render_page lower (utcnow_page env k) lead);;
     shown ← lift (relative_to_root env (output_file env lead));
     print (u "Generated " ++ shown);;
     generate_loop lower env now_str (S k) rest (acc ++ [new_entry now_str lead])).
Proof. reflexivity. Qed.

(** One pass that goes through. *)
Lemma generate_loop_pass (k : nat) (lead : Lead.t) (rest : list Lead.t)
    (acc : list GeneratedEntry.t) (w : World) (shown : pystr) :
  page_step lower env k lead = PageDone shown ->
  generate_loop lower env now_str k (lead :: rest) acc w =
    generate_loop lower env now_str (S k) rest (acc ++ [new_entry now_str lead])
      (mk_world
         (set_files (<[page_loc env lead := render_page lower (utcnow_page env k) lead]>
                       (files (disk w))) (disk w))
         (log w ++ [WroteText (page_path env lead); Printed (u "Generated " ++ shown)])).
Proof.
  intros [Hwrite Hshown]%page_step_done. rewrite generate_loop_cons.
  rewrite (bind_Ok _ _ _ _ _ (write_page_stored env _ _ _ w Hwrite)).
  rewrite (bind_Ok (lift _) _ _ _ shown) by (unfold lift; by rewrite Hshown).
  rewrite (bind_Ok (print _) _ _ _ tt eq_refl).
  cbn [disk log]. by rewrite <- app_assoc.
Qed.

(** All passes go through: the loop appends one entry per lead and leaves
    the pages in their files. *)
Lemma generate_loop_done (batch : list Lead.t) :
  forall (k : nat) (acc : list GeneratedEntry.t) (w : World),
    pages_done lower env k batch = true ->
    generate_loop lower env now_str k batch acc w =
      (Ok (acc ++ map (new_entry now_str) batch),
       mk_world (set_files (written lower env k batch (files (disk w))) (disk w))
                (log w ++ page_events env batch)).
Proof.
  induction batch as [|lead rest IH]; intros k acc w Hdone.
  - cbn [generate_loop map written page_events flat_map].
    rewrite !app_nil_r, set_files_same. by destruct w.
  - cbn [pages_done] in Hdone.
    destruct (page_step lower env k lead) as [shown| |] eqn:Hstep; try discriminate Hdone.
    rewrite (generate_loop_pass _ _ _ _ _ shown Hstep), (IH _ _ _ Hdone).
    apply page_step_done in Hstep as [_ Hshown].
    rewrite (page_events_cons_done env lead rest shown Hshown).
    cbn [map written log disk files set_files leads_csv generated_json pages_dir].
    rewrite <- !app_assoc. reflexivity.
Qed.

(** The write of page number [k + n] raises after the passes before it
    went through: the loop raises, and nothing but the files of the pages
    changed. *)
Lemma generate_loop_write_failed (batch : list Lead.t) :
  forall (k n : nat) (acc : list GeneratedEntry.t) (w : World) (bad : Lead.t)
         (e : exn) (remains : option pystr),
    batch !! n = Some bad ->
    pages_done lower env k (take n batch) = true ->
    page_step lower env (k + n) bad = PageWriteFailed e remains ->
    generate_loop lower env now_str k batch acc w =
      (Raise e,
       mk_world
         (set_files
            (after_failed_write remains (page_loc env bad)
               (written lower env k (take n batch) (files (disk w))))
            (disk w))
         (log w ++ page_events env (take n batch) ++ [WroteText (page_path env bad)])).
Proof.
  induction batch as [|lead rest IH]; intros k n acc w bad e remains Hbad Hdone Hstep;
    [done|].
  destruct n as [|n].
  - injection Hbad as ->. rewrite Nat.add_0_r in Hstep.
    apply page_step_write_failed in Hstep. rewrite generate_loop_cons.
    by rewrite (bind_Raise _ _ _ _ _ (write_page_failed env _ _ _ w e remains Hstep)).
  - cbn [take pages_done] in Hdone. cbn in Hbad.
    destruct (page_step lower env k lead) as [shown| |] eqn:Hlead; try discriminate Hdone.
    replace (k + S n)%nat with (S k + n)%nat in Hstep by lia.
    rewrite (generate_loop_pass _ _ _ _ _ shown Hlead).
    rewrite (IH _ _ _ _ _ _ _ Hbad Hdone Hstep).
    apply page_step_done in Hlead as [_ Hshown].
    cbn [take]. rewrite (page_events_cons_done env lead _ shown Hshown).
    cbn [written log disk files set_files leads_csv generated_json pages_dir].
    rewrite <- !app_assoc. reflexivity.
Qed.

(** The page number [k + n] is written and [relative_to] raises. *)
Lemma generate_loop_print_failed (batch : list Lead.t) :
  forall (k n : nat) (acc : list GeneratedEntry.t) (w : World) (bad : Lead.t) (e : exn),
    batch !! n = Some bad ->
    pages_done lower env k (take n batch) = true ->
    page_step lower env (k + n) bad = PagePrintFailed e ->
    generate_loop lower env now_str k batch acc w =
      (Raise e,
       mk_world
         (set_files (written lower env k (take (S n) batch) (files (disk w))) (disk w))
         (log w ++ page_events env (take n batch) ++ [WroteText (page_path env bad)])).
Proof.
  induction batch as [|lead rest IH]; intros k n acc w bad e Hbad Hdone Hstep; [done|].
  destruct n as [|n].
  - injection Hbad as ->. rewrite Nat.add_0_r in Hstep.
    apply page_step_print_failed in Hstep as [Hwrite Hshown]. rewrite generate_loop_cons.
    rewrite (bind_Ok _ _ _ _ _ (write_page_stored env _ _ _ w Hwrite)).
    rewrite (bind_Raise (lift _) _ _ _ e) by (unfold lift; by rewrite Hshown).
    cbn [take written page_events flat_map app]. by rewrite take_0.
  - cbn [take pages_done] in Hdone. cbn in Hbad.
    destruct (page_step lower env k lead) as [shown| |] eqn:Hlead; try discriminate Hdone.
    replace (k + S n)%nat with (S k + n)%nat in Hstep by lia.
    rewrite (generate_loop_pass _ _ _ _ _ shown Hlead).
    rewrite (IH _ _ _ _ _ _ Hbad Hdone Hstep).
    apply page_step_done in Hlead as [_ Hshown].
    cbn [take]. rewrite (page_events_cons_done env lead _ shown Hshown).
    cbn [written log disk files set_files leads_csv generated_json pages_dir].
    rewrite <- !app_assoc. reflexivity.
Qed.

(** A page whose file no later page of the batch is written to keeps its
    text. *)
Lemma written_lookup_other (batch : list Lead.t) (loc : pystr) :
  forall (k : nat) (texts : gmap pystr pystr),
    Forall (fun lead => page_loc env lead <> loc) batch ->
    written lower env k batch texts !! loc = texts !! loc.
Proof.
  induction batch as [|lead rest IH]; intros k texts Hne; [done|].
  inversion Hne as [|? ? Hlead Hrest]; subst.
  cbn [written]. rewrite IH by done. by rewrite lookup_insert_ne.
Qed.

Lemma written_lookup (batch : list Lead.t) :
  forall (k j : nat) (texts : gmap pystr pystr) (lead : Lead.t),
    batch !! j = Some lead ->
    Forall (fun later => page_loc env later <> page_loc env lead) (drop (S j) batch) ->
    written lower env k batch texts !! page_loc env lead =
      Some (render_page lower (utcnow_page env (k + j)) lead).
Proof.
  induction batch as [|first rest IH]; intros k j texts lead Hj Hlater; [done|].
  destruct j as [|j'].
  - injection Hj as ->. cbn [written]. cbn [drop] in Hlater.
    rewrite written_lookup_other by done.
    by rewrite lookup_insert_eq, Nat.add_0_r.
  - cbn [written]. cbn in Hj. cbn [drop] in Hlater.
    rewrite (IH (S k) j' _ lead Hj Hlater).
    by replace (S k + j')%nat with (k + S j')%nat by lia.
Qed.

End Loop.

Lemma new_events_app (w w' : World) (events : list event) :
  log w' = log w ++ events -> new_events w w' = events.
Proof. intros H. unfold new_events. by rewrite H, drop_app_length. Qed.

Lemma path_root_cases (s : pystr) :
  path_root s = [] \/ path_root s = [slash] \/ path_root s = [slash; slash].
Proof.
  destruct s as [|c1 [|c2 [|c3 r]]]; cbn [path_root];
    repeat match goal with |- context [if ?b then _ else _] => destruct b end; tauto.
Qed.

Lemma OUTPUT_DIR_eq (env : Env) :
  OUTPUT_DIR env = mk_path [slash] (root_parts env ++ [u "pages"]).
Proof. reflexivity. Qed.

(** A page path is absolute. *)
Lemma page_path_absolute (env : Env) (lead : Lead.t) :
  exists rest, page_path env lead = slash :: rest.
Proof.
  unfold page_path, output_file, joinpath. rewrite OUTPUT_DIR_eq.
  destruct (anchor (parse_path (Lead.slug lead ++ u ".html"))) as [|c r] eqn:Hanchor.
  - cbn [anchor parts path_str app]. eauto.
  - unfold path_str. rewrite Hanchor. cbn [parse_path anchor] in Hanchor.
    destruct (path_root_cases (Lead.slug lead ++ u ".html")) as [H|[H|H]];
      rewrite H in Hanchor; [discriminate Hanchor|..];
      injection Hanchor as <- <-; cbn [app]; eauto.
Qed.

Lemma ledger_path_not_page (env : Env) (lead : Lead.t) :
  WroteText (page_path env lead) <> WroteText ledger_path.
Proof.
  destruct (page_path_absolute env lead) as [rest ->].
  intros H. vm_compute in H. discriminate H.
Qed.

Lemma ledger_path_not_in_page_events (env : Env) (batch : list Lead.t) :
  ~ In (WroteText ledger_path) (page_events env batch).
Proof.
  unfold page_events. rewrite in_flat_map. intros (lead & _ & [H|H]).
  - by apply ledger_path_not_page in H.
  - destruct (relative_to_root env (output_file env lead)); [|destruct H].
    destruct H as [H|[]]. discriminate H.
Qed.

Section Runs.

Variable lower : pystr -> pystr.
Variable env : Env.

Lemma main_selected (w : World) (leads : list Lead.t)
    (generated_entries : list GeneratedEntry.t) (fresh batch : list Lead.t) :
  load_leads (leads_csv (disk w)) = Ok leads ->
  load_generated (generated_json (disk w)) = Ok generated_entries ->
  select_batch leads generated_entries = Ok (fresh, batch) ->
  main lower env w =
    match batch with
    | [] => print (u "No new leads to generate.") w
    | _ :: _ =>
        (mkdir_pages (mkdir_pages_ok env);;
         generated_entries ←
           generate_loop lower env (strftime_timestamp (utcnow_main env)) 0 batch
             generated_entries;
         save_generated (mkdir_data_ok env) (ledger_io env) generated_entries;;
         print (u "Saved log to data/generated.json")) w
    end.
Proof.
  intros Hleads Hentries Hselect. unfold main.
  rewrite (bind_Ok (read _) _ w w leads) by (unfold read; by rewrite Hleads).
  rewrite (bind_Ok (read _) _ w w generated_entries)
    by (unfold read; by rewrite Hentries).
  rewrite (bind_Ok (lift _) _ w w (fresh, batch)) by (unfold lift; by rewrite Hselect).
  cbn [snd]. by destruct batch.
Qed.

Lemma mkdir_pages_true (w : World) :
  mkdir_pages true w =
    (Ok tt, mk_world (set_pages_dir (disk w)) (log w ++ [MadeDir (u "pages")])).
Proof. reflexivity. Qed.

Lemma mkdir_pages_false (w : World) :
  mkdir_pages false w = (Raise OSError, mk_world (disk w) (log w ++ [MadeDir (u "pages")])).
Proof. reflexivity. Qed.

Lemma save_generated_stored (outcome : io_result json_file)
    (entries : list GeneratedEntry.t) (w : World) :
  write_attempt outcome ledger_path (json_encodable (payload entries)) Malformed = Stored ->
  save_generated true outcome entries w =
    (Ok tt, mk_world (set_generated (Doc (payload entries)) (disk w))
                     (log w ++ [MadeDir (u "data"); WroteText ledger_path])).
Proof.
  intros Hattempt. unfold save_generated. unfold ledger_path in Hattempt.
  rewrite (bind_Ok (emit _) _ w _ tt eq_refl).
  rewrite (bind_Ok (ret tt) _ _ _ tt eq_refl).
  rewrite (bind_Ok (emit _) _ _ _ tt eq_refl).
  rewrite Hattempt. unfold modify_disk. cbn [disk log]. by rewrite <- app_assoc.
Qed.

Lemma save_generated_mkdir_fail (outcome : io_result json_file)
    (entries : list GeneratedEntry.t) (w : World) :
  save_generated false outcome entries w =
    (Raise OSError, mk_world (disk w) (log w ++ [MadeDir (u "data")])).
Proof.
  unfold save_generated.
  rewrite (bind_Ok (emit _) _ w _ tt eq_refl).
  by rewrite (bind_Raise (raise OSError) _ _ _ OSError eq_refl).
Qed.

Lemma save_generated_failed (outcome : io_result json_file)
    (entries : list GeneratedEntry.t) (w : World) (e : exn) (remains : option json_file) :
  write_attempt outcome ledger_path (json_encodable (payload entries)) Malformed
  = Failed e remains ->
  save_generated true outcome entries w =
    (Raise e,
     mk_world (match remains with
               | None => disk w
               | Some partial => set_generated partial (disk w)
               end)
              (log w ++ [MadeDir (u "data"); WroteText ledger_path])).
Proof.
  intros Hattempt. unfold save_generated. unfold ledger_path in Hattempt.
  rewrite (bind_Ok (emit _) _ w _ tt eq_refl).
  rewrite (bind_Ok (ret tt) _ _ _ tt eq_refl).
  rewrite (bind_Ok (emit _) _ _ _ tt eq_refl).
  rewrite Hattempt. destruct remains as [partial|].
  - rewrite (bind_Ok (modify_disk _) _ _ _ tt eq_refl).
    unfold raise. cbn [disk log]. by rewrite <- app_assoc.
  - unfold raise. cbn [disk log]. by rewrite <- app_assoc.
Qed.

End Runs.

Section BatchRuns.

Variable lower : pystr -> pystr.
Variable env : Env.
Variable w : World.
Variable leads : list Lead.t.
Variable generated_entries : list GeneratedEntry.t.
Variable fresh batch : list Lead.t.

Hypothesis Hleads : load_leads (leads_csv (disk w)) = Ok leads.
Hypothesis Hentries : load_generated (generated_json (disk w)) = Ok generated_entries.
Hypothesis Hselect : select_batch leads generated_entries = Ok (fresh, batch).

Lemma main_empty_batch :
  batch = [] ->
  main lower env w =
    (Ok tt, mk_world (disk w) (log w ++ [Printed (u "No new leads to generate.")])).
Proof.
  intros Hbatch. rewrite (main_selected _ _ _ _ _ _ _ Hleads Hentries Hselect).
  by rewrite Hbatch.
Qed.

Lemma main_mkdir_fail :
  batch <> [] -> mkdir_pages_ok env = false ->
  main lower env w = (Raise OSError, mk_world (disk w) (log w ++ [MadeDir (u "pages")])).
Proof.
  intros Hbatch Hmk. rewrite (main_selected _ _ _ _ _ _ _ Hleads Hentries Hselect).
  destruct batch as [|lead0 rest]; [done|]. rewrite Hmk.
  by rewrite (bind_Raise _ _ _ _ _ (mkdir_pages_false w)).
Qed.

Lemma main_page_write_fail (n : nat) (bad : Lead.t) (e : exn) (remains : option pystr) :
  mkdir_pages_ok env = true ->
  batch !! n = Some bad ->
  pages_done lower env 0 (take n batch) = true ->
  page_step lower env n bad = PageWriteFailed e remains ->
  main lower env w =
    (Raise e,
     mk_world
       (disk_with (disk w) (generated_json (disk w))
          (after_failed_write remains (page_loc env bad)
             (written lower env 0 (take n batch) (files (disk w)))))
       (log w ++ MadeDir (u "pages") :: page_events env (take n batch)
              ++ [WroteText (page_path env bad)])).
Proof.
  intros Hmk Hbad Hdone Hfail.
  rewrite (main_selected _ _ _ _ _ _ _ Hleads Hentries Hselect).
  destruct batch as [|lead0 rest] eqn:Hbatch; [done|]. rewrite <- Hbatch in *.
  rewrite Hmk, (bind_Ok _ _ _ _ _ (mkdir_pages_true w)).
  erewrite bind_Raise;
    [|by apply (generate_loop_write_failed lower env _ batch 0 n _ _ bad e remains)].
  cbn [disk log disk_with set_files set_pages_dir leads_csv generated_json pages_dir files].
  by rewrite <- app_assoc.
Qed.

Lemma main_page_print_fail (n : nat) (bad : Lead.t) (e : exn) :
  mkdir_pages_ok env = true ->
  batch !! n = Some bad ->
  pages_done lower env 0 (take n batch) = true ->
  page_step lower env n bad = PagePrintFailed e ->
  main lower env w =
    (Raise e,
     mk_world
       (disk_with (disk w) (generated_json (disk w))
          (written lower env 0 (take (S n) batch) (files (disk w))))
       (log w ++ MadeDir (u "pages") :: page_events env (take n batch)
              ++ [WroteText (page_path env bad)])).
Proof.
  intros Hmk Hbad Hdone Hfail.
  rewrite (main_selected _ _ _ _ _ _ _ Hleads Hentries Hselect).
  destruct batch as [|lead0 rest] eqn:Hbatch; [done|]. rewrite <- Hbatch in *.
  rewrite Hmk, (bind_Ok _ _ _ _ _ (mkdir_pages_true w)).
  erewrite bind_Raise;
    [|by apply (generate_loop_print_failed lower env _ batch 0 n _ _ bad e)].
  cbn [disk log disk_with set_files set_pages_dir leads_csv generated_json pages_dir files].
  by rewrite <- app_assoc.
Qed.

Lemma main_loop_done :
  batch <> [] -> mkdir_pages_ok env = true ->
  pages_done lower env 0 batch = true ->
  main lower env w =
    (save_generated (mkdir_data_ok env) (ledger_io env)
       (saved_entries env generated_entries batch);;
     print (u "Saved log to data/generated.json"))
      (mk_world (disk_with (disk w) (generated_json (disk w))
                   (written lower env 0 batch (files (disk w))))
                (log w ++ MadeDir (u "pages") :: page_events env batch)).
Proof.
  intros Hne Hmk Hdone.
  rewrite (main_selected _ _ _ _ _ _ _ Hleads Hentries Hselect).
  destruct batch as [|lead0 rest] eqn:Hbatch; [done|]. rewrite <- Hbatch in *.
  rewrite Hmk, (bind_Ok _ _ _ _ _ (mkdir_pages_true w)).
  erewrite bind_Ok; [|by apply (generate_loop_done lower env _ batch 0)].
  cbn [disk log disk_with set_files set_pages_dir leads_csv generated_json pages_dir files].
  by rewrite <- app_assoc.
Qed.

Lemma main_ok :
  batch <> [] -> mkdir_pages_ok env = true ->
  pages_done lower env 0 batch = true ->
  mkdir_data_ok env = true ->
  write_attempt (ledger_io env) ledger_path
    (json_encodable (payload (saved_entries env generated_entries batch))) Malformed
  = Stored ->
  main lower env w =
    (Ok tt,
     mk_world
       (disk_with (disk w)
          (Some (Doc (payload (saved_entries env generated_entries batch))))
          (written lower env 0 batch (files (disk w))))
       (log w ++ MadeDir (u "pages") :: page_events env batch
              ++ [MadeDir (u "data"); WroteText ledger_path;
                  Printed (u "Saved log to data/generated.json")])).
Proof.
  intros Hne Hmk Hdone Hdata Hio. rewrite (main_loop_done Hne Hmk Hdone), Hdata.
  rewrite (bind_Ok _ _ _ _ _ (save_generated_stored _ _ _ Hio)).
  unfold print, emit.
  cbn [disk log disk_with set_generated leads_csv pages_dir files].
  rewrite <- !app_assoc. reflexivity.
Qed.

Lemma main_save_mkdir_fail :
  batch <> [] -> mkdir_pages_ok env = true ->
  pages_done lower env 0 batch = true ->
  mkdir_data_ok env = false ->
  main lower env w =
    (Raise OSError,
     mk_world
       (disk_with (disk w) (generated_json (disk w))
          (written lower env 0 batch (files (disk w))))
       (log w ++ MadeDir (u "pages") :: page_events env batch ++ [MadeDir (u "data")])).
Proof.
  intros Hne Hmk Hdone Hdata. rewrite (main_loop_done Hne Hmk Hdone), Hdata.
  rewrite (bind_Raise _ _ _ _ _ (save_generated_mkdir_fail _ _ _)).
  cbn [disk log]. rewrite <- !app_assoc. reflexivity.
Qed.

Lemma main_save_write_fail (e : exn) (remains : option json_file) :
  batch <> [] -> mkdir_pages_ok env = true ->
  pages_done lower env 0 batch = true ->
  mkdir_data_ok env = true ->
  write_attempt (ledger_io env) ledger_path
    (json_encodable (payload (saved_entries env generated_entries batch))) Malformed
  = Failed e remains ->
  main lower env w =
    (Raise e,
     mk_world
       (disk_with (disk w)
          (ledger_after_failed_write remains (generated_json (disk w)))
          (written lower env 0 batch (files (disk w))))
       (log w ++ MadeDir (u "pages") :: page_events env batch
              ++ [MadeDir (u "data"); WroteText ledger_path])).
Proof.
  intros Hne Hmk Hdone Hdata Hio. rewrite (main_loop_done Hne Hmk Hdone), Hdata.
  rewrite (bind_Raise _ _ _ _ _ (save_generated_failed _ _ _ _ _ Hio)).
  cbn [disk log]. rewrite <- !app_assoc. by destruct remains.
Qed.

End BatchRuns.

Lemma new_events_mk (w : World) (d : Disk) (events : list event) :
  new_events w (mk_world d (log w ++ events)) = events.
Proof. by apply new_events_app. Qed.

Lemma load_generated_payload (entries : list GeneratedEntry.t) :
  load_generated (Some (Doc (payload entries))) = Ok entries.
Proof.
  unfold payload.
  rewrite (load_generated_object _
             (map (fun entry => JObj (GeneratedEntry.to_dict entry)) entries)).
  - by rewrite omap_entry_of_to_dict.
  - reflexivity.
Qed.

Lemma json_encodable_insert (key : pystr) (item : json) (members : gmap pystr json) :
  members !! key = None ->
  json_encodable (JObj (<[key := item]> members))
  = encodable key && json_encodable item && json_encodable (JObj members).
Proof.
  intros Hfresh. cbn [json_encodable].
  rewrite map_fold_insert_L; [done| |done].
  intros k1 k2 v1 v2 rest _ _ _.
  destruct (encodable k1), (json_encodable v1), (encodable k2), (json_encodable v2), rest; done.
Qed.

Lemma json_encodable_empty : json_encodable (JObj ∅) = true.
Proof. cbn [json_encodable]. apply map_fold_empty. Qed.

Lemma to_dict_encodable (entry : GeneratedEntry.t) :
  json_encodable (JObj (GeneratedEntry.to_dict entry)) = entry_encodable entry.
Proof.
  unfold GeneratedEntry.to_dict, entry_encodable.
  rewrite <- insert_empty.
  rewrite !json_encodable_insert; [|by vm_compute..].
  rewrite json_encodable_empty.
  replace (encodable (u "slug")) with true by (vm_compute; reflexivity).
  replace (encodable (u "created_at")) with true by (vm_compute; reflexivity).
  replace (encodable (u "source")) with true by (vm_compute; reflexivity).
  cbn [andb]. by rewrite !andb_true_r, andb_assoc.
Qed.

Lemma payload_encodable (entries : list GeneratedEntry.t) :
  json_encodable (payload entries) = forallb entry_encodable entries.
Proof.
  unfold payload.
  change ({[u "generated" := ?v]}) with (<[u "generated" := v]> (∅ : gmap pystr json)).
  rewrite json_encodable_insert by done.
  rewrite json_encodable_empty.
  replace (encodable (u "generated")) with true by (vm_compute; reflexivity).
  rewrite andb_true_r. cbn [andb json_encodable].
  induction entries as [|entry rest IH]; [done|].
  cbn [map forallb]. rewrite <- IH.
  by rewrite <- to_dict_encodable.
Qed.

(** C2: when the batch is empty, [main] returns normally, leaves the disk
    as it was (no pages directory created, no page written, ledger file
    not rewritten) and makes no call but the print of the message that
    there are no new leads. *)
Theorem main_without_new_leads_writes_nothing (lower : pystr -> pystr) (env : Env)
    (w : World) (leads : list Lead.t) (generated_entries : list GeneratedEntry.t)
    (fresh : list Lead.t) :
  load_leads (leads_csv (disk w)) = Ok leads ->
  load_generated (generated_json (disk w)) = Ok generated_entries ->
  select_batch leads generated_entries = Ok (fresh, []) ->
  exists w',
    main lower env w = (Ok tt, w')
    /\ disk w' = disk w
    /\ new_events w w' = [Printed (u "No new leads to generate.")].
Proof.
  intros Hleads Hentries Hselect. eexists. split; [|split].
  - by apply (main_empty_batch lower env w _ _ _ _ Hleads Hentries Hselect).
  - reflexivity.
  - apply new_events_mk.
Qed.

Lemma main_without_new_leads_writes_nothing_witness :
  exists w',
    main (fun s => s) quiet_env
      (world_of [row_of_slug (u "A")] (Some (Doc (payload [entry_of_slug (JStr (u "A"))]))))
    = (Ok tt, w')
    /\ disk w' =
         disk (world_of [row_of_slug (u "A")]
                 (Some (Doc (payload [entry_of_slug (JStr (u "A"))]))))
    /\ new_events
         (world_of [row_of_slug (u "A")] (Some (Doc (payload [entry_of_slug (JStr (u "A"))]))))
         w'
       = [Printed (u "No new leads to generate.")].
Proof.
  apply (main_without_new_leads_writes_nothing (fun s => s) quiet_env
           (world_of [row_of_slug (u "A")] (Some (Doc (payload [entry_of_slug (JStr (u "A"))]))))
           [lead_of_slug (u "A")] [entry_of_slug (JStr (u "A"))] []).
  - vm_compute. reflexivity.
  - vm_compute. reflexivity.
  - vm_compute. reflexivity.
Defined.

Lemma main_load_leads_raises (lower : pystr -> pystr) (env : Env) (w : World) (e : exn) :
  load_leads (leads_csv (disk w)) = Raise e -> main lower env w = (Raise e, w).
Proof.
  intros H. unfold main.
  by rewrite (bind_Raise (read _) _ w w e) by (unfold read; by rewrite H).
Qed.

Lemma main_load_generated_raises (lower : pystr -> pystr) (env : Env) (w : World)
    (leads : list Lead.t) (e : exn) :
  load_leads (leads_csv (disk w)) = Ok leads ->
  load_generated (generated_json (disk w)) = Raise e ->
  main lower env w = (Raise e, w).
Proof.
  intros Hleads H. unfold main.
  rewrite (bind_Ok (read _) _ w w leads) by (unfold read; by rewrite Hleads).
  by rewrite (bind_Raise (read _) _ w w e) by (unfold read; by rewrite H).
Qed.

Lemma main_select_raises (lower : pystr -> pystr) (env : Env) (w : World)
    (leads : list Lead.t) (generated_entries : list GeneratedEntry.t) (e : exn) :
  load_leads (leads_csv (disk w)) = Ok leads ->
  load_generated (generated_json (disk w)) = Ok generated_entries ->
  select_batch leads generated_entries = Raise e ->
  main lower env w = (Raise e, w).
Proof.
  intros Hleads Hentries H. unfold main.
  rewrite (bind_Ok (read _) _ w w leads) by (unfold read; by rewrite Hleads).
  rewrite (bind_Ok (read _) _ w w generated_entries)
    by (unfold read; by rewrite Hentries).
  by rewrite (bind_Raise (lift _) _ w w e) by (unfold lift; by rewrite H).
Qed.

Lemma main_batch_outcome (lower : pystr -> pystr) (env : Env) (w : World)
    (leads : list Lead.t) (generated_entries : list GeneratedEntry.t)
    (fresh batch : list Lead.t) :
  load_leads (leads_csv (disk w)) = Ok leads ->
  load_generated (generated_json (disk w)) = Ok generated_entries ->
  select_batch leads generated_entries = Ok (fresh, batch) ->
  batch <> [] ->
  batch_outcome lower env w generated_entries batch
    (fst (main lower env w)) (snd (main lower env w)).
Proof.
  intros Hleads Hentries Hselect Hne.
  destruct (mkdir_pages_ok env) eqn:Hmk.
  2: { rewrite (main_mkdir_fail lower env w _ _ _ _ Hleads Hentries Hselect Hne Hmk).
       by apply pages_mkdir_failed. }
  destruct (page_cases lower env batch 0)
    as [Hdone|(n & bad & Hbad & Hdone & [(e & remains & Hfail)|(e & Hfail)])].
  2: { rewrite (main_page_write_fail lower env w _ _ _ _ Hleads Hentries Hselect
                  n bad e remains Hmk Hbad Hdone Hfail).
       by apply page_write_failed. }
  2: { rewrite (main_page_print_fail lower env w _ _ _ _ Hleads Hentries Hselect
                  n bad e Hmk Hbad Hdone Hfail).
       by apply page_print_failed. }
  destruct (mkdir_data_ok env) eqn:Hdata.
  2: { rewrite (main_save_mkdir_fail lower env w _ _ _ _ Hleads Hentries Hselect
                  Hne Hmk Hdone Hdata).
       by apply data_mkdir_failed. }
  destruct (write_attempt (ledger_io env) ledger_path
              (json_encodable (payload (saved_entries env generated_entries batch)))
              Malformed) as [|e remains] eqn:Hio.
  - rewrite (main_ok lower env w _ _ _ _ Hleads Hentries Hselect Hne Hmk Hdone Hdata Hio).
    by apply run_completed.
  - rewrite (main_save_write_fail lower env w _ _ _ _ Hleads Hentries Hselect
               e remains Hne Hmk Hdone Hdata Hio).
    by apply ledger_write_failed.
Qed.

Lemma ledger_write_not_before_save (env : Env) (batch : list Lead.t) (tail : list event) :
  ~ In (WroteText ledger_path) tail ->
  ~ In (WroteText ledger_path) (MadeDir (u "pages") :: page_events env batch ++ tail).
Proof.
  intros Htail [H|[H|H]%in_app_iff].
  - discriminate H.
  - by apply ledger_path_not_in_page_events in H.
  - by apply Htail.
Qed.

Lemma page_write_is_not_ledger_write (env : Env) (lead : Lead.t) :
  ~ In (WroteText ledger_path) [WroteText (page_path env lead)].
Proof. intros [H|[]]. by apply ledger_path_not_page in H. Qed.

Lemma page_kept (lower : pystr -> pystr) (env : Env) (batch : list Lead.t)
    (texts : gmap pystr pystr) (n j : nat) (lead : Lead.t) :
  batch !! j = Some lead ->
  (j < n)%nat ->
  Forall (fun later => page_loc env later <> page_loc env lead) (drop (S j) (take n batch)) ->
  written lower env 0 (take n batch) texts !! page_loc env lead
  = Some (render_page lower (utcnow_page env j) lead).
Proof.
  intros Hlead Hjn Hlater.
  rewrite (written_lookup lower env (take n batch) 0 j texts lead); [done| |done].
  by rewrite lookup_take_lt.
Qed.

Lemma page_kept_after_failure (lower : pystr -> pystr) (env : Env) (batch : list Lead.t)
    (texts : gmap pystr pystr) (n j : nat) (bad lead : Lead.t) (remains : option pystr) :
  batch !! n = Some bad ->
  batch !! j = Some lead ->
  (j < n)%nat ->
  Forall (fun later => page_loc env later <> page_loc env lead)
    (drop (S j) (take (S n) batch)) ->
  after_failed_write remains (page_loc env bad) (written lower env 0 (take n batch) texts)
    !! page_loc env lead
  = Some (render_page lower (utcnow_page env j) lead).
Proof.
  intros Hbad Hlead Hjn Hlater.
  assert (length (take n batch) = n) as Hlen.
  { apply length_take_le. apply lookup_lt_Some in Hbad. lia. }
  rewrite (take_S_r _ _ _ Hbad), drop_app_le in Hlater by lia.
  apply Forall_app in Hlater as [Hdone Hlast].
  rewrite Forall_singleton in Hlast.
  pose proof (page_kept lower env batch texts n j lead Hlead Hjn Hdone) as Hwritten.
  destruct remains as [partial|]; cbn [after_failed_write]; [|done].
  by rewrite lookup_insert_ne.
Qed.

Lemma failed_write_step (lower : pystr -> pystr) (env : Env) (k : nat) (lead : Lead.t)
    (e : exn) (remains : option pystr) :
  write_attempt (page_io env k) (page_path env lead)
    (encodable (render_page lower (utcnow_page env k) lead)) [] = Failed e remains ->
  page_step lower env k lead = PageWriteFailed e remains.
Proof. intros H. unfold page_step. by rewrite H. Qed.

Lemma failed_print_step (lower : pystr -> pystr) (env : Env) (k : nat) (lead : Lead.t)
    (e : exn) :
  write_attempt (page_io env k) (page_path env lead)
    (encodable (render_page lower (utcnow_page env k) lead)) [] = Stored ->
  relative_to_root env (output_file env lead) = Raise e ->
  page_step lower env k lead = PagePrintFailed e.
Proof. intros Hstored Hshown. unfold page_step. by rewrite Hstored, Hshown. Qed.

Lemma ledger_write_stored (outcome : io_result json_file) (encodes : bool) :
  write_attempt outcome ledger_path encodes Malformed = Stored
  <-> outcome = IoOk /\ encodes = true.
Proof.
  unfold write_attempt.
  replace (fs_encodable ledger_path) with true by (vm_compute; reflexivity).
  replace (has_nul ledger_path) with false by (vm_compute; reflexivity).
  cbn [negb]. destruct outcome as [|e residue], encodes; split; try done; by intros [? ?].
Qed.

(** C4: when the write of page N of a non-empty batch fails, [main] raises
    what the write raised; the ledger file (and the CSV) is what it was
    before the run; the other files are what the writes of pages 1..N-1,
    in batch order, made of them, but for what the failed write left of
    its own file, so that every earlier page whose file no later page up
    to N shares holds its rendering; the run made no call on the ledger
    file.  The same holds when page N is written and [relative_to] then
    refuses its path.  Pages 1..N-1 are those whose pass went through:
    the file is written and its line printed.
    In every run the ledger is written at most once, as the last write,
    after the passes for the whole batch went through. *)
Theorem main_page_failure_leaves_ledger :
  (forall (lower : pystr -> pystr) (env : Env) (w : World) (leads : list Lead.t)
          (generated_entries : list GeneratedEntry.t) (fresh batch : list Lead.t)
          (n : nat) (bad : Lead.t) (e : exn) (remains : option pystr),
      load_leads (leads_csv (disk w)) = Ok leads ->
      load_generated (generated_json (disk w)) = Ok generated_entries ->
      select_batch leads generated_entries = Ok (fresh, batch) ->
      mkdir_pages_ok env = true ->
      batch !! n = Some bad ->
      pages_done lower env 0 (take n batch) = true ->
      write_attempt (page_io env n) (page_path env bad)
        (encodable (render_page lower (utcnow_page env n) bad)) [] = Failed e remains ->
      exists w',
        main lower env w = (Raise e, w')
        /\ generated_json (disk w') = generated_json (disk w)
        /\ leads_csv (disk w') = leads_csv (disk w)
        /\ files (disk w') =
             after_failed_write remains (page_loc env bad)
               (written lower env 0 (take n batch) (files (disk w)))
        /\ (forall (j : nat) (lead : Lead.t),
              batch !! j = Some lead -> (j < n)%nat ->
              Forall (fun later => page_loc env later <> page_loc env lead)
                (drop (S j) (take (S n) batch)) ->
              files (disk w') !! page_loc env lead
              = Some (render_page lower (utcnow_page env j) lead))
        /\ new_events w w' =
             MadeDir (u "pages") :: page_events env (take n batch)
               ++ [WroteText (page_path env bad)]
        /\ ~ In (WroteText ledger_path) (new_events w w'))
  /\ (forall (lower : pystr -> pystr) (env : Env) (w : World) (leads : list Lead.t)
            (generated_entries : list GeneratedEntry.t) (fresh batch : list Lead.t)
            (n : nat) (bad : Lead.t) (e : exn),
        load_leads (leads_csv (disk w)) = Ok leads ->
        load_generated (generated_json (disk w)) = Ok generated_entries ->
        select_batch leads generated_entries = Ok (fresh, batch) ->
        mkdir_pages_ok env = true ->
        batch !! n = Some bad ->
        pages_done lower env 0 (take n batch) = true ->
        write_attempt (page_io env n) (page_path env bad)
          (encodable (render_page lower (utcnow_page env n) bad)) [] = Stored ->
        relative_to_root env (output_file env bad) = Raise e ->
        exists w',
          main lower env w = (Raise e, w')
          /\ generated_json (disk w') = generated_json (disk w)
          /\ leads_csv (disk w') = leads_csv (disk w)
          /\ files (disk w') = written lower env 0 (take (S n) batch) (files (disk w))
          /\ (forall (j : nat) (lead : Lead.t),
                batch !! j = Some lead -> (j <= n)%nat ->
                Forall (fun later => page_loc env later <> page_loc env lead)
                  (drop (S j) (take (S n) batch)) ->
                files (disk w') !! page_loc env lead
                = Some (render_page lower (utcnow_page env j) lead))
          /\ new_events w w' =
               MadeDir (u "pages") :: page_events env (take n batch)
                 ++ [WroteText (page_path env bad)]
          /\ ~ In (WroteText ledger_path) (new_events w w'))
  /\ (forall (lower : pystr -> pystr) (env : Env) (w : World),
        In (WroteText ledger_path) (new_events w (snd (main lower env w))) ->
        exists leads generated_entries fresh batch tail,
          load_leads (leads_csv (disk w)) = Ok leads
          /\ load_generated (generated_json (disk w)) = Ok generated_entries
          /\ select_batch leads generated_entries = Ok (fresh, batch)
          /\ pages_done lower env 0 batch = true
          /\ new_events w (snd (main lower env w)) =
               (MadeDir (u "pages") :: page_events env batch ++ [MadeDir (u "data")])
               ++ WroteText ledger_path :: tail
          /\ ~ In (WroteText ledger_path)
                 (MadeDir (u "pages") :: page_events env batch ++ [MadeDir (u "data")])
          /\ (tail = [] \/ tail = [Printed (u "Saved log to data/generated.json")])).
Proof.
  split; [|split].
  - intros lower env w leads generated_entries fresh batch n bad e remains
      Hleads Hentries Hselect Hmk Hbad Hdone Hfail.
    apply failed_write_step in Hfail.
    eexists. split.
    { apply (main_page_write_fail lower env w _ _ _ _ Hleads Hentries Hselect
               n bad e remains Hmk Hbad Hdone Hfail). }
    split; [reflexivity|]. split; [reflexivity|]. split; [reflexivity|].
    split; [|split].
    + intros j lead Hlead Hjn Hlater. by apply page_kept_after_failure.
    + apply new_events_mk.
    + rewrite new_events_mk. apply ledger_write_not_before_save,
        page_write_is_not_ledger_write.
  - intros lower env w leads generated_entries fresh batch n bad e
      Hleads Hentries Hselect Hmk Hbad Hdone Hstored Hshown.
    pose proof (failed_print_step lower env n bad e Hstored Hshown) as Hfail.
    eexists. split.
    { apply (main_page_print_fail lower env w _ _ _ _ Hleads Hentries Hselect
               n bad e Hmk Hbad Hdone Hfail). }
    split; [reflexivity|]. split; [reflexivity|]. split; [reflexivity|].
    split; [|split].
    + intros j lead Hlead Hjn Hlater. cbn [disk disk_with files].
      apply page_kept; [done|lia|done].
    + apply new_events_mk.
    + rewrite new_events_mk. apply ledger_write_not_before_save,
        page_write_is_not_ledger_write.
  - intros lower env w Hin.
    destruct (load_leads (leads_csv (disk w))) as [leads|e] eqn:Hleads.
    2: { rewrite (main_load_leads_raises lower env w e Hleads) in Hin.
         unfold new_events in Hin. cbn [snd] in Hin.
         rewrite drop_all in Hin. destruct Hin. }
    destruct (load_generated (generated_json (disk w))) as [generated_entries|e]
      eqn:Hentries.
    2: { rewrite (main_load_generated_raises lower env w leads e Hleads Hentries) in Hin.
         unfold new_events in Hin. cbn [snd] in Hin.
         rewrite drop_all in Hin. destruct Hin. }
    destruct (select_batch leads generated_entries) as [[fresh batch]|e] eqn:Hselect.
    2: { rewrite (main_select_raises lower env w leads _ e Hleads Hentries Hselect) in Hin.
         unfold new_events in Hin. cbn [snd] in Hin.
         rewrite drop_all in Hin. destruct Hin. }
    destruct (decide (batch = [])) as [Hnil|Hne].
    { rewrite (main_empty_batch lower env w _ _ _ _ Hleads Hentries Hselect Hnil) in Hin.
      cbn [snd] in Hin. rewrite new_events_mk in Hin.
      destruct Hin as [H|[]]. discriminate H. }
    pose proof (main_batch_outcome lower env w _ _ _ _ Hleads Hentries Hselect Hne)
      as Hout.
    destruct Hout as [Hmk|n bad e remains Hmk Hbad Hdone Hfail
                     |n bad e Hmk Hbad Hdone Hfail|Hmk Hdone Hdata
                     |e remains Hmk Hdone Hdata Hio|Hmk Hdone Hdata Hio].
    + rewrite new_events_mk in Hin. destruct Hin as [H|[]]. discriminate H.
    + rewrite new_events_mk in Hin. exfalso. revert Hin.
      apply ledger_write_not_before_save, page_write_is_not_ledger_write.
    + rewrite new_events_mk in Hin. exfalso. revert Hin.
      apply ledger_write_not_before_save, page_write_is_not_ledger_write.
    + rewrite new_events_mk in Hin. exfalso. revert Hin.
      apply ledger_write_not_before_save.
      intros [H|[]]. discriminate H.
    + exists leads, generated_entries, fresh, batch, [].
      repeat (split; [done|]). rewrite new_events_mk. split; [|split].
      * cbn [app]. by rewrite <- app_assoc.
      * apply ledger_write_not_before_save. intros [H|[]]. discriminate H.
      * by left.
    + exists leads, generated_entries, fresh, batch,
        [Printed (u "Saved log to data/generated.json")].
      repeat (split; [done|]). rewrite new_events_mk. split; [|split].
      * cbn [app]. by rewrite <- app_assoc.
      * apply ledger_write_not_before_save. intros [H|[]]. discriminate H.
      * by right.
Qed.

Lemma main_page_failure_leaves_ledger_witness :
  exists w',
    main (fun s => s) (failing_at 2)
      (world_of [row_of_slug (u "a"); row_of_slug (u "./a"); row_of_slug (u "b")] None)
    = (Raise OSError, w')
    /\ generated_json (disk w') = None
    /\ files (disk w') !! u "/srv/landing/pages/a.html"
       = Some (render_page (fun s => s) late (lead_of_slug (u "./a")))
    /\ files (disk w') !! u "/srv/landing/pages/b.html" = Some (u "<!DOC")
    /\ ~ In (WroteText ledger_path)
           (new_events
              (world_of [row_of_slug (u "a"); row_of_slug (u "./a"); row_of_slug (u "b")]
                 None) w').
Proof.
  destruct (proj1 main_page_failure_leaves_ledger (fun s => s) (failing_at 2)
              (world_of [row_of_slug (u "a"); row_of_slug (u "./a"); row_of_slug (u "b")]
                 None)
              [lead_of_slug (u "a"); lead_of_slug (u "./a"); lead_of_slug (u "b")] []
              [lead_of_slug (u "a"); lead_of_slug (u "./a"); lead_of_slug (u "b")]
              [lead_of_slug (u "a"); lead_of_slug (u "./a"); lead_of_slug (u "b")]
              2%nat (lead_of_slug (u "b")) OSError (Some (u "<!DOC")))
    as (w' & Hrun & Hledger & _ & Hfiles & Hkept & _ & Hlog).
  - vm_compute. reflexivity.
  - vm_compute. reflexivity.
  - vm_compute. reflexivity.
  - reflexivity.
  - reflexivity.
  - vm_compute. reflexivity.
  - vm_compute. reflexivity.
  - exists w'. split; [exact Hrun|]. split; [exact Hledger|].
    split; [|split; [|exact Hlog]].
    + apply (Hkept 1%nat (lead_of_slug (u "./a"))).
      * reflexivity.
      * repeat constructor.
      * constructor; [vm_compute; discriminate | constructor].
    + rewrite Hfiles. vm_compute. reflexivity.
Defined.

(** C5: a ledger written by [save_generated] is read back by
    [load_generated] as the same sequence of entries (same length, same
    slug, created_at and source, same order), provided no string of an
    entry holds a lone surrogate; so is the bare-array form of any
    entries.  When a string of an entry holds a lone surrogate,
    [save_generated] raises [UnicodeEncodeError] and leaves the ledger
    file empty, which [load_generated] then refuses. *)
Theorem save_then_load_roundtrip :
  (forall (entries : list GeneratedEntry.t) (w : World),
      forallb entry_encodable entries = true ->
      exists w',
        save_generated true IoOk entries w = (Ok tt, w')
        /\ generated_json (disk w') = Some (Doc (payload entries))
        /\ load_generated (generated_json (disk w')) = Ok entries)
  /\ (forall entries : list GeneratedEntry.t,
        load_generated (Some (Doc (legacy_payload entries))) = Ok entries)
  /\ (forall (entries : list GeneratedEntry.t) (w : World),
        forallb entry_encodable entries = false ->
        exists w',
          save_generated true IoOk entries w = (Raise UnicodeEncodeError, w')
          /\ generated_json (disk w') = Some Malformed
          /\ load_generated (generated_json (disk w')) = Raise JSONDecodeError).
Proof.
  split; [|split].
  - intros entries w Hencodable. eexists. split.
    + apply save_generated_stored, ledger_write_stored.
      by rewrite payload_encodable.
    + split; [reflexivity|]. apply load_generated_payload.
  - intros entries. unfold legacy_payload.
    by rewrite load_generated_array, omap_entry_of_to_dict.
  - intros entries w Hsurrogate. eexists. split.
    + apply (save_generated_failed _ _ _ UnicodeEncodeError (Some Malformed)).
      rewrite payload_encodable, Hsurrogate. reflexivity.
    + split; reflexivity.
Qed.

Lemma save_then_load_roundtrip_witness :
  exists w',
    save_generated true IoOk
      [entry_of_slug (JStr (u "A")); entry_of_slug (JStr (u "ö–"))] (world_of [] None)
    = (Ok tt, w')
    /\ load_generated (generated_json (disk w'))
       = Ok [entry_of_slug (JStr (u "A")); entry_of_slug (JStr (u "ö–"))].
Proof.
  destruct (proj1 save_then_load_roundtrip
              [entry_of_slug (JStr (u "A")); entry_of_slug (JStr (u "ö–"))]
              (world_of [] None))
    as (w' & Hsave & _ & Hload).
  - vm_compute. reflexivity.
  - exists w'. by split.
Defined.

(** C5 as stated fails: the entry whose slug is the lone
    surrogate U+D800 is read from a ledger file, and saving it raises
    [UnicodeEncodeError] and leaves a file that cannot be loaded. *)
Lemma save_generated_lone_surrogate :
  load_generated (Some (Doc (payload [surrogate_entry]))) = Ok [surrogate_entry]
  /\ save_generated true IoOk [surrogate_entry] (world_of [] None)
     = (Raise UnicodeEncodeError,
        mk_world (mk_disk (Some []) (Some Malformed) false ∅)
          [MadeDir (u "data"); WroteText ledger_path])
  /\ load_generated (Some Malformed) = Raise JSONDecodeError
  /\ ~ (forall (entries : list GeneratedEntry.t) (w : World),
          exists w',
            save_generated true IoOk entries w = (Ok tt, w')
            /\ load_generated (generated_json (disk w')) = Ok entries).
Proof.
  assert (save_generated true IoOk [surrogate_entry] (world_of [] None)
          = (Raise UnicodeEncodeError,
             mk_world (mk_disk (Some []) (Some Malformed) false ∅)
               [MadeDir (u "data"); WroteText ledger_path])) as Hsave.
  { vm_compute. reflexivity. }
  split; [apply load_generated_payload|]. split; [exact Hsave|].
  split; [reflexivity|].
  intros Hclaim. destruct (Hclaim [surrogate_entry] (world_of [] None)) as (w' & Hok & _).
  rewrite Hsave in Hok. discriminate Hok.
Qed.

(** C6: a run with a non-empty batch completes exactly when the pages
    directory can be made, the pass for every lead of the batch goes
    through (the page is written and its line printed), the data
    directory can be made, the system takes the write of the ledger and no
    string of the entries to save holds a lone surrogate.  The ledger file
    is then rewritten once, as the last write of the run, and holds the
    entries loaded at the start followed by one new entry per lead of the
    batch, in batch order, each with the slug of its lead, the one
    timestamp taken before the loop as created_at and the path of the CSV
    file as source. *)
Theorem main_saves_old_entries_then_new (lower : pystr -> pystr) (env : Env) (w : World)
    (leads : list Lead.t) (generated_entries : list GeneratedEntry.t)
    (fresh batch : list Lead.t) :
  load_leads (leads_csv (disk w)) = Ok leads ->
  load_generated (generated_json (disk w)) = Ok generated_entries ->
  select_batch leads generated_entries = Ok (fresh, batch) ->
  batch <> [] ->
  let saved :=
    generated_entries
    ++ map (fun lead =>
              GeneratedEntry.mk (JStr (Lead.slug lead))
                (JStr (strftime_timestamp (utcnow_main env)))
                (JStr (u "data/leads.csv"))) batch in
  ((exists w', main lower env w = (Ok tt, w'))
   <-> mkdir_pages_ok env = true
       /\ pages_done lower env 0 batch = true
       /\ mkdir_data_ok env = true
       /\ ledger_io env = IoOk
       /\ forallb entry_encodable saved = true)
  /\ (forall w',
        main lower env w = (Ok tt, w') ->
        generated_json (disk w') = Some (Doc (payload saved))
        /\ load_generated (generated_json (disk w')) = Ok saved
        /\ new_events w w' =
             (MadeDir (u "pages") :: page_events env batch ++ [MadeDir (u "data")])
             ++ [WroteText ledger_path; Printed (u "Saved log to data/generated.json")]
        /\ ~ In (WroteText ledger_path)
               (MadeDir (u "pages") :: page_events env batch ++ [MadeDir (u "data")])).
Proof.
  intros Hleads Hentries Hselect Hne saved.
  assert (saved = saved_entries env generated_entries batch) as Hsaved by reflexivity.
  pose proof (main_batch_outcome lower env w _ _ _ _ Hleads Hentries Hselect Hne)
    as Hout.
  split; [split|].
  - intros [w' Hrun]. rewrite Hrun in Hout. cbn [fst snd] in Hout.
    inversion Hout as [| | | | |Hmk Hdone Hdata Hio Hres Hw']. clear Hout.
    apply ledger_write_stored in Hio as [Hio Hencodable].
    rewrite payload_encodable in Hencodable. by rewrite Hsaved.
  - intros (Hmk & Hdone & Hdata & Hio & Hencodable). eexists.
    apply (main_ok lower env w _ _ _ _ Hleads Hentries Hselect Hne Hmk Hdone Hdata).
    apply ledger_write_stored. split; [done|].
    by rewrite payload_encodable, <- Hsaved.
  - intros w' Hrun. rewrite Hrun in Hout. cbn [fst snd] in Hout.
    inversion Hout as [| | | | |Hmk Hdone Hdata Hio Hres Hw']. clear Hout.
    cbn [disk disk_with generated_json]. rewrite <- Hsaved.
    split; [reflexivity|].
    split; [apply load_generated_payload|]. split.
    + rewrite new_events_mk. cbn [app]. by rewrite <- app_assoc.
    + apply ledger_write_not_before_save. intros [H|[]]. discriminate H.
Qed.

Lemma main_saves_old_entries_then_new_witness :
  exists w',
    main (fun s => s) quiet_env
      (world_of [row_of_slug (u "A"); row_of_slug (u "./c")]
         (Some (Doc (payload [entry_of_slug (JStr (u "A"))]))))
    = (Ok tt, w')
    /\ generated_json (disk w') =
         Some (Doc (payload
                      [entry_of_slug (JStr (u "A"));
                       GeneratedEntry.mk (JStr (u "./c")) (JStr (u "2024-03-07T01:02:03Z"))
                         (JStr (u "data/leads.csv"))]))
    /\ new_events
         (world_of [row_of_slug (u "A"); row_of_slug (u "./c")]
            (Some (Doc (payload [entry_of_slug (JStr (u "A"))])))) w'
       = [MadeDir (u "pages");
          WroteText (u "/srv/landing/pages/c.html");
          Printed (u "Generated pages/c.html");
          MadeDir (u "data");
          WroteText (u "data/generated.json");
          Printed (u "Saved log to data/generated.json")].
Proof.
  pose proof (main_saves_old_entries_then_new (fun s => s) quiet_env
                (world_of [row_of_slug (u "A"); row_of_slug (u "./c")]
                   (Some (Doc (payload [entry_of_slug (JStr (u "A"))]))))
                [lead_of_slug (u "A"); lead_of_slug (u "./c")]
                [entry_of_slug (JStr (u "A"))]
                [lead_of_slug (u "./c")] [lead_of_slug (u "./c")]) as Hthm.
  destruct Hthm as [Hruns Hsaved].
  - vm_compute. reflexivity.
  - vm_compute. reflexivity.
  - vm_compute. reflexivity.
  - discriminate.
  - destruct (proj2 Hruns) as [w' Hrun].
    { do 4 (split; [vm_compute; reflexivity|]). vm_compute. reflexivity. }
    exists w'. split; [exact Hrun|].
    destruct (Hsaved w' Hrun) as (Hfile & _ & Hlog & _).
    split; [exact Hfile|]. rewrite Hlog. vm_compute. reflexivity.
Defined.

(** ** Further properties of the ledger store *)

Lemma omap_entry_none (items : list json) :
  Forall (fun item => entry_of_item item = None) items -> omap entry_of_item items = [].
Proof.
  induction 1 as [|item rest Hitem _ IH]; [done|].
  cbn [omap list_omap]. by rewrite Hitem.
Qed.

Lemma load_generated_not_entries (v : json) (items : list json) :
  py_iter v = Ok items ->
  Forall (fun item => entry_of_item item = None) items ->
  rbind (py_iter v) (fun items => Ok (load_generated_loop items [])) = Ok [].
Proof.
  intros -> Hnone. cbn [rbind].
  by rewrite load_generated_loop_omap, (omap_entry_none _ Hnone).
Qed.

Lemma py_iter_str_or_dict (v : json) :
  (exists s, v = JStr s) \/ (exists members, v = JObj members) ->
  exists items, py_iter v = Ok items
                /\ Forall (fun item => entry_of_item item = None) items.
Proof.
  intros [[s ->]|[members ->]]; eexists; (split; [reflexivity|]);
    apply Forall_forall; intros item (x & -> & _)%list_elem_of_fmap; reflexivity.
Qed.

(** X1: documents of other shapes.  An object without a [generated] key
    gives no entry; so does a string, at top level or under [generated],
    and an object under [generated] (iterating them yields strings, which
    are skipped); null, a boolean or a number, at top level or under
    [generated], raises [TypeError]. *)
Theorem load_generated_other_documents :
  (forall d : gmap pystr json,
      d !! u "generated" = None -> load_generated (Some (Doc (JObj d))) = Ok [])
  /\ (forall s : pystr, load_generated (Some (Doc (JStr s))) = Ok [])
  /\ (forall (d : gmap pystr json) (v : json),
        d !! u "generated" = Some v ->
        (exists s, v = JStr s) \/ (exists members, v = JObj members) ->
        load_generated (Some (Doc (JObj d))) = Ok [])
  /\ (forall v : json,
        is_scalar v = true -> load_generated (Some (Doc v)) = Raise TypeError)
  /\ (forall (d : gmap pystr json) (v : json),
        d !! u "generated" = Some v -> is_scalar v = true ->
        load_generated (Some (Doc (JObj d))) = Raise TypeError).
Proof.
  split; [|split; [|split; [|split]]].
  - intros d Hd. cbn [load_generated]. unfold dict_get. by rewrite Hd.
  - intros s. cbn [load_generated].
    destruct (py_iter_str_or_dict (JStr s)) as (items & Hiter & Hnone); [eauto|].
    by apply (load_generated_not_entries _ items).
  - intros d v Hd Hv. cbn [load_generated]. unfold dict_get. rewrite Hd.
    destruct (py_iter_str_or_dict v Hv) as (items & Hiter & Hnone).
    by apply (load_generated_not_entries _ items).
  - intros v Hv. destruct v; try discriminate Hv; reflexivity.
  - intros d v Hd Hv. cbn [load_generated]. unfold dict_get. rewrite Hd.
    destruct v; try discriminate Hv; reflexivity.
Qed.

Lemma load_generated_other_documents_witness :
  load_generated (Some (Doc (JObj {[ u "entries" := JArr [] ]}))) = Ok []
  /\ load_generated (Some (Doc (JObj {[ u "generated" := JStr (u "a,b") ]}))) = Ok []
  /\ load_generated (Some (Doc (JNum (u "3")))) = Raise TypeError
  /\ load_generated (Some (Doc (JObj {[ u "generated" := JNull ]}))) = Raise TypeError.
Proof.
  destruct load_generated_other_documents as (Hnokey & _ & Hstr & Hscalar & Hunder).
  split; [|split; [|split]].
  - apply Hnokey. vm_compute. reflexivity.
  - apply (Hstr _ (JStr (u "a,b"))); [vm_compute; reflexivity|].
    left. exists (u "a,b"). reflexivity.
  - apply Hscalar. reflexivity.
  - apply (Hunder _ JNull); [vm_compute; reflexivity|reflexivity].
Defined.

Lemma length_omap_entry (items : list json) :
  (length (omap entry_of_item items) <= length items)%nat.
Proof.
  induction items as [|item rest IH]; [done|].
  cbn [omap list_omap length]. destruct (entry_of_item item); cbn [length]; lia.
Qed.

(** X2: reading an array yields at most one entry per item, and the
    entries of two arrays put end to end are the entries of the first
    followed by those of the second. *)
Theorem load_generated_concat (a b : list json) :
  exists ea eb,
    load_generated (Some (Doc (JArr a))) = Ok ea
    /\ load_generated (Some (Doc (JArr b))) = Ok eb
    /\ load_generated (Some (Doc (JArr (a ++ b)))) = Ok (ea ++ eb)
    /\ (length ea <= length a)%nat.
Proof.
  exists (omap entry_of_item a), (omap entry_of_item b).
  rewrite !load_generated_array, omap_app.
  repeat split. apply length_omap_entry.
Qed.

(** ** Further properties of the lead loader *)

Lemma missing_of_agree (row1 row2 : Row) :
  (forall field, In field Lead.required_fields -> row1 !! field = row2 !! field) ->
  Lead.missing_of row1 = Lead.missing_of row2.
Proof.
  intros Hagree. unfold Lead.missing_of. apply filter_ext_in.
  intros field Hin. unfold row_get. by rewrite (Hagree field Hin).
Qed.

Lemma from_row_agree (row1 row2 : Row) :
  (forall field, In field Lead.required_fields -> row1 !! field = row2 !! field) ->
  Lead.from_row row1 = Lead.from_row row2.
Proof.
  intros Hagree. unfold Lead.from_row. rewrite (missing_of_agree _ _ Hagree).
  destruct (Lead.missing_of row2); [|done].
  assert (forall field, In field Lead.required_fields ->
                        row_item_strip row1 field = row_item_strip row2 field) as Hitem.
  { intros field Hin. unfold row_item_strip. pose proof (Hagree field Hin) as Hfield.
    unfold cell in *. by rewrite Hfield. }
  repeat (rewrite Hitem by (unfold Lead.required_fields; cbn [In]; tauto);
          match goal with
          | |- rbind ?r _ = rbind ?r _ => destruct r; cbn [rbind]; [|done]
          end).
  reflexivity.
Qed.

(** X3: [Lead.from_row] reads the six required columns only: two rows that
    agree on them give the same lead or the same error, so a column of
    another name, whatever it holds, changes nothing. *)
Theorem from_row_ignores_other_columns :
  (forall row1 row2 : Row,
      (forall field, In field Lead.required_fields -> row1 !! field = row2 !! field) ->
      Lead.from_row row1 = Lead.from_row row2)
  /\ (forall (row : Row) (column : pystr) (c : cell),
        ~ In column Lead.required_fields ->
        Lead.from_row (<[column := c]> row) = Lead.from_row row).
Proof.
  split; [apply from_row_agree|].
  intros row column c Hother. apply from_row_agree.
  intros field Hin. apply lookup_insert_ne. by intros ->.
Qed.

Lemma from_row_ignores_other_columns_witness :
  Lead.from_row row_with_note = Lead.from_row (row_of_slug (u "A")).
Proof.
  apply (proj2 from_row_ignores_other_columns (row_of_slug (u "A")) (u "note")
           (Some (u " call back "))).
  vm_compute. intros H. repeat (destruct H as [H|H]; [discriminate H|]). exact H.
Defined.

Lemma lstrip_starts (s : pystr) : starts_blank (lstrip s) = false.
Proof.
  induction s as [|c r IH]; [done|].
  cbn [lstrip]. destruct (is_space c) eqn:Hc; [done|]. cbn [starts_blank]. exact Hc.
Qed.

Lemma lstrip_suffix (s : pystr) : exists blanks, s = blanks ++ lstrip s.
Proof.
  induction s as [|c r [blanks IH]]; [by exists []|].
  cbn [lstrip]. destruct (is_space c).
  - exists (c :: blanks). cbn [app]. by rewrite <- IH.
  - by exists [].
Qed.

Lemma lstrip_id (s : pystr) : starts_blank s = false -> lstrip s = s.
Proof. destruct s as [|c r]; [done|]. cbn. by intros ->. Qed.

Lemma rstrip_prefix (s : pystr) : exists blanks, s = rstrip s ++ blanks.
Proof.
  unfold rstrip. destruct (lstrip_suffix (rev s)) as [blanks Hs].
  exists (rev blanks). rewrite <- rev_app_distr, <- Hs. by rewrite rev_involutive.
Qed.

Lemma strip_starts (s : pystr) : starts_blank (strip s) = false.
Proof.
  unfold strip. destruct (rstrip_prefix (lstrip s)) as [blanks Hs].
  pose proof (lstrip_starts s) as Hstart. rewrite Hs in Hstart.
  by destruct (rstrip (lstrip s)).
Qed.

Lemma strip_ends (s : pystr) : ends_blank (strip s) = false.
Proof.
  unfold ends_blank, strip, rstrip. rewrite rev_involutive. apply lstrip_starts.
Qed.

Lemma strip_fixpoint (s : pystr) :
  starts_blank s = false -> ends_blank s = false -> strip s = s.
Proof.
  intros Hstart Hend. unfold strip, rstrip.
  rewrite (lstrip_id s Hstart), (lstrip_id (rev s) Hend). apply rev_involutive.
Qed.

Lemma from_rows_trimmed (rows : list Row) (leads : list Lead.t) :
  from_rows rows = Ok leads -> leads = map trimmed_lead rows.
Proof.
  revert leads. induction rows as [|row rest IH]; intros leads; cbn [from_rows map].
  - by intros [= <-].
  - destruct (Lead.missing_of row) as [|field missing] eqn:Hm.
    + rewrite (from_row_valid row Hm). cbn [rbind].
      destruct (from_rows rest) as [leads'|e]; [|done].
      intros [= <-]. by rewrite (IH leads' eq_refl).
    + rewrite (from_row_invalid row) by (by rewrite Hm). done.
Qed.

(** X4: every field of every lead that [load_leads] returns is trimmed: it
    neither begins nor ends with a whitespace character, and trimming it
    again changes nothing. *)
Theorem loaded_fields_are_trimmed (file : option (list Row)) (leads : list Lead.t)
    (lead : Lead.t) (field : pystr) :
  load_leads file = Ok leads ->
  In lead leads ->
  In field Lead.required_fields ->
  starts_blank (attr lead field) = false
  /\ ends_blank (attr lead field) = false
  /\ strip (attr lead field) = attr lead field.
Proof.
  intros Hload Hlead Hfield.
  destruct file as [rows|]; [|discriminate Hload]. cbn [load_leads] in Hload.
  rewrite (from_rows_trimmed rows leads Hload) in Hlead.
  apply in_map_iff in Hlead as (row & <- & _).
  rewrite (attr_trimmed_lead row field Hfield).
  pose proof (strip_starts (field_value row field)) as Hstart.
  pose proof (strip_ends (field_value row field)) as Hend.
  split; [done|]. split; [done|]. by apply strip_fixpoint.
Qed.

Lemma loaded_fields_are_trimmed_witness :
  starts_blank (attr (trimmed_lead blank_city_row) (u "business_name")) = false
  /\ ends_blank (attr (trimmed_lead blank_city_row) (u "business_name")) = false
  /\ strip (attr (trimmed_lead blank_city_row) (u "business_name"))
     = attr (trimmed_lead blank_city_row) (u "business_name").
Proof.
  apply (loaded_fields_are_trimmed (Some [blank_city_row]) [trimmed_lead blank_city_row]).
  - vm_compute. reflexivity.
  - left. reflexivity.
  - vm_compute. tauto.
Defined.

(** ** Further properties of the batch selection *)

Lemma select_batch_inv (leads : list Lead.t) (generated_entries : list GeneratedEntry.t)
    (fresh batch : list Lead.t) :
  select_batch leads generated_entries = Ok (fresh, batch) ->
  slugs_hashable generated_entries = true
  /\ fresh = fresh_spec leads generated_entries
  /\ batch = take BATCH_SIZE fresh.
Proof.
  intros Hselect. destruct (slugs_hashable generated_entries) eqn:Hhash.
  - rewrite (select_batch_hashable _ _ Hhash) in Hselect.
    by injection Hselect as <- <-.
  - unfold select_batch in Hselect.
    rewrite (slug_set_unhashable _ Hhash) in Hselect. discriminate Hselect.
Qed.

Lemma fresh_spec_nil_iff (leads : list Lead.t) (generated_entries : list GeneratedEntry.t) :
  fresh_spec leads generated_entries = [] <->
  forall lead, In lead leads -> in_ledger generated_entries lead.
Proof.
  unfold fresh_spec. split.
  - intros Hnil lead Hlead%list_elem_of_In.
    destruct (decide (in_ledger generated_entries lead)) as [|Hout]; [done|].
    by destruct (filter_nil_not_elem_of _ _ lead Hnil Hout).
  - intros Hall.
    destruct (filter _ leads) as [|lead rest] eqn:Hfilter; [done|].
    assert (lead ∈ filter (fun lead => ~ in_ledger generated_entries lead) leads)
      as [Hout Hlead%list_elem_of_In]%list_elem_of_filter
      by (rewrite Hfilter; left).
    by destruct (Hout (Hall lead Hlead)).
Qed.

(** X5: the batch has at most [BATCH_SIZE] = 40 leads and is the front of
    the fresh leads, the others being left over; it keeps the order of the
    CSV file; none of its leads has its slug in the ledger; it is empty
    exactly when every lead of the CSV file has; and with an empty ledger
    every lead is fresh. *)
Theorem select_batch_shape (leads : list Lead.t)
    (generated_entries : list GeneratedEntry.t) (fresh batch : list Lead.t) :
  select_batch leads generated_entries = Ok (fresh, batch) ->
  length batch = Nat.min 40 (length fresh)
  /\ fresh = batch ++ drop 40 fresh
  /\ sublist batch leads
  /\ (forall lead, In lead batch -> ~ in_ledger generated_entries lead)
  /\ (batch = [] <-> forall lead, In lead leads -> in_ledger generated_entries lead)
  /\ (generated_entries = [] -> fresh = leads).
Proof.
  intros (_ & -> & ->)%select_batch_inv. unfold BATCH_SIZE.
  split; [apply length_take|]. split; [by rewrite take_drop|].
  split; [|split; [|split]].
  - etrans; [apply sublist_take|]. apply sublist_filter.
  - intros lead Hlead%list_elem_of_In.
    apply subseteq_take in Hlead. by apply list_elem_of_filter in Hlead as [Hout _].
  - rewrite <- fresh_spec_nil_iff.
    destruct (fresh_spec leads generated_entries); [done|]. split; discriminate.
  - intros ->. unfold fresh_spec. induction leads as [|lead rest IH]; [done|].
    rewrite filter_cons, IH. rewrite decide_True; [done|].
    unfold in_ledger. by intros ?%Exists_nil.
Qed.

Lemma select_batch_shape_witness :
  length [lead_of_slug (u "C"); lead_of_slug (u "D")] = Nat.min 40 2
  /\ sublist [lead_of_slug (u "C"); lead_of_slug (u "D")]
       [lead_of_slug (u "A"); lead_of_slug (u "B"); lead_of_slug (u "C"); lead_of_slug (u "D")].
Proof.
  destruct (select_batch_shape
              [lead_of_slug (u "A"); lead_of_slug (u "B");
               lead_of_slug (u "C"); lead_of_slug (u "D")]
              [entry_of_slug (JStr (u "A")); entry_of_slug (JStr (u "B"))]
              [lead_of_slug (u "C"); lead_of_slug (u "D")]
              [lead_of_slug (u "C"); lead_of_slug (u "D")])
    as (Hlen & _ & Hsub & _).
  - vm_compute. reflexivity.
  - split; [exact Hlen|exact Hsub].
Defined.

Lemma in_ledger_app (e1 e2 : list GeneratedEntry.t) (lead : Lead.t) :
  in_ledger (e1 ++ e2) lead <-> in_ledger e1 lead \/ in_ledger e2 lead.
Proof. unfold in_ledger. apply Exists_app. Qed.

Lemma in_ledger_new_entries (now_str : pystr) (batch : list Lead.t) (lead : Lead.t) :
  in_ledger (map (new_entry now_str) batch) lead <->
  Lead.slug lead ∈ map Lead.slug batch.
Proof.
  unfold in_ledger. rewrite Exists_exists. split.
  - intros (entry & (other & -> & Hother)%list_elem_of_fmap & [= Hslug]).
    rewrite <- Hslug. by apply (list_elem_of_fmap_2 Lead.slug).
  - intros (other & Hslug & Hother)%list_elem_of_fmap.
    exists (new_entry now_str other). split.
    + by apply (list_elem_of_fmap_2 (new_entry now_str)).
    + cbn. by rewrite Hslug.
Qed.

Lemma slugs_hashable_app_new (generated_entries : list GeneratedEntry.t)
    (now_str : pystr) (batch : list Lead.t) :
  slugs_hashable generated_entries = true ->
  slugs_hashable (generated_entries ++ map (new_entry now_str) batch) = true.
Proof.
  unfold slugs_hashable. intros Hold. rewrite map_app, forallb_app, Hold.
  cbn [andb]. induction batch as [|lead rest IH]; [done|]. exact IH.
Qed.

Lemma fresh_spec_app_new (leads : list Lead.t) (generated_entries : list GeneratedEntry.t)
    (now_str : pystr) (batch : list Lead.t) :
  fresh_spec leads (generated_entries ++ map (new_entry now_str) batch) =
    filter (fun lead => Lead.slug lead ∉ map Lead.slug batch)
      (fresh_spec leads generated_entries).
Proof.
  unfold fresh_spec. rewrite list_filter_filter. apply list_filter_iff.
  intros lead. rewrite in_ledger_app, in_ledger_new_entries. tauto.
Qed.

Lemma filter_out_front {A B} `{EqDecision B} (f : A -> B) (front back : list A) :
  NoDup (map f (front ++ back)) ->
  filter (fun x => f x ∉ map f front) (front ++ back) = back.
Proof.
  rewrite map_app. intros (_ & Hdisjoint & _)%NoDup_app.
  rewrite filter_app.
  assert (forall l, l ⊆ front -> filter (fun x => f x ∉ map f front) l = []) as Hfront.
  { induction l as [|x l IH]; intros Hl; [done|].
    assert (x ∈ front) as Hx by (apply Hl; left).
    assert (l ⊆ front) as Hl' by (intros y Hy; apply Hl; by right).
    rewrite filter_cons, decide_False, (IH Hl'); [done|].
    intros Hout. apply Hout. by apply (list_elem_of_fmap_2 f). }
  assert (forall l, l ⊆ back -> filter (fun x => f x ∉ map f front) l = l) as Hback.
  { induction l as [|x l IH]; intros Hl; [done|].
    assert (x ∈ back) as Hx by (apply Hl; left).
    assert (l ⊆ back) as Hl' by (intros y Hy; apply Hl; by right).
    rewrite filter_cons, decide_True, (IH Hl'); [done|].
    intros Hin. apply (Hdisjoint _ Hin). by apply (list_elem_of_fmap_2 f). }
  by rewrite Hfront, Hback.
Qed.

Lemma fresh_slugs_NoDup (leads : list Lead.t) (generated_entries : list GeneratedEntry.t) :
  NoDup (map Lead.slug leads) ->
  NoDup (map Lead.slug (fresh_spec leads generated_entries)).
Proof.
  intros Hleads. apply (sublist_NoDup _ _ Hleads).
  apply (fmap_sublist Lead.slug). apply sublist_filter.
Qed.

(** X6: once the entries of a batch are appended to the ledger, the next
    selection takes the fresh leads of before without those that have the
    slug of a lead of the batch; when the slugs of the CSV file are
    pairwise distinct these are the leads that were left over, so a
    further run goes on with the next [BATCH_SIZE] of them. *)
Theorem next_selection_skips_batch (leads : list Lead.t)
    (generated_entries : list GeneratedEntry.t) (now_str : pystr) :
  slugs_hashable generated_entries = true ->
  let fresh := fresh_spec leads generated_entries in
  let batch := take BATCH_SIZE fresh in
  let fresh' := filter (fun lead => Lead.slug lead ∉ map Lead.slug batch) fresh in
  select_batch leads (generated_entries ++ map (new_entry now_str) batch) =
    Ok (fresh', take BATCH_SIZE fresh')
  /\ (NoDup (map Lead.slug leads) -> fresh' = drop BATCH_SIZE fresh).
Proof.
  intros Hhash fresh batch fresh'. split.
  - rewrite select_batch_hashable by by apply slugs_hashable_app_new.
    by rewrite fresh_spec_app_new.
  - intros Hleads. unfold fresh', batch.
    transitivity (filter (fun lead => Lead.slug lead ∉ map Lead.slug (take BATCH_SIZE fresh))
                    (take BATCH_SIZE fresh ++ drop BATCH_SIZE fresh));
      [by rewrite take_drop|].
    apply filter_out_front. rewrite take_drop.
    by apply fresh_slugs_NoDup.
Qed.

Lemma next_selection_skips_batch_witness :
  select_batch
    [lead_of_slug (u "A"); lead_of_slug (u "C")]
    ([entry_of_slug (JStr (u "A"))] ++ map (new_entry (u "t")) [lead_of_slug (u "C")])
  = Ok ([], []).
Proof.
  pose proof (next_selection_skips_batch
                [lead_of_slug (u "A"); lead_of_slug (u "C")]
                [entry_of_slug (JStr (u "A"))] (u "t")) as Hnext.
  cbv zeta in Hnext. destruct Hnext as [Hselect _]; [reflexivity|].
  refine (eq_trans Hselect _). vm_compute. reflexivity.
Defined.

Lemma new_entry_slugs (now_str : pystr) (batch : list Lead.t) :
  map GeneratedEntry.slug (map (new_entry now_str) batch) = map JStr (map Lead.slug batch).
Proof. induction batch as [|lead rest IH]; [done|]. cbn [map]. by rewrite IH. Qed.

(** X7: a run keeps the slugs of the ledger pairwise distinct: when the
    slugs of the CSV file are pairwise distinct and so are those of the
    loaded ledger, so are those of the ledger with the entries of the batch
    appended. *)
Theorem ledger_slugs_stay_distinct (leads : list Lead.t)
    (generated_entries : list GeneratedEntry.t) (fresh batch : list Lead.t)
    (now_str : pystr) :
  select_batch leads generated_entries = Ok (fresh, batch) ->
  NoDup (map Lead.slug leads) ->
  NoDup (map GeneratedEntry.slug generated_entries) ->
  NoDup (map GeneratedEntry.slug (generated_entries ++ map (new_entry now_str) batch)).
Proof.
  intros (_ & -> & ->)%select_batch_inv Hleads Hold.
  rewrite map_app. apply NoDup_app. split; [done|]. split.
  - intros slug Hin (entry & -> & (lead & -> & Hlead)%list_elem_of_fmap)%list_elem_of_fmap.
    apply subseteq_take, list_elem_of_filter in Hlead as [Hout _].
    apply Hout. unfold in_ledger. apply Exists_exists.
    apply list_elem_of_fmap in Hin as (entry & Hslug & Hentry).
    exists entry. split; [done|]. by rewrite <- Hslug.
  - rewrite new_entry_slugs.
    apply (NoDup_fmap_2 JStr (Inj0 := ltac:(by intros x y [= ->]))).
    apply (sublist_NoDup _ (map Lead.slug leads)); [done|].
    apply (fmap_sublist Lead.slug).
    etrans; [apply sublist_take|]. apply sublist_filter.
Qed.

Lemma ledger_slugs_stay_distinct_witness :
  NoDup (map GeneratedEntry.slug
           ([entry_of_slug (JStr (u "A"))] ++ map (new_entry (u "t")) [lead_of_slug (u "C")])).
Proof.
  apply (ledger_slugs_stay_distinct
           [lead_of_slug (u "A"); lead_of_slug (u "C")]
           [entry_of_slug (JStr (u "A"))]
           [lead_of_slug (u "C")] [lead_of_slug (u "C")] (u "t")).
  - vm_compute. reflexivity.
  - apply (bool_decide_unpack _). vm_compute. exact I.
  - apply NoDup_singleton.
Defined.

(** ** Further properties of the orchestrator *)

(** X8: a failing load ends the run before any effect: with no CSV file
    [main] raises [FileNotFoundError]; with a row that lacks a required
    field it raises the [ValueError] of the first such row, whatever the
    ledger holds; with a ledger file that is not UTF-8 it raises
    [UnicodeDecodeError]; with a ledger file that is UTF-8 text but not
    JSON it raises [JSONDecodeError]; with a ledger whose top-level value,
    or value under [generated], is null, a boolean or a number it raises
    [TypeError]; with an unhashable slug in the ledger it raises
    [TypeError].  In each case the disk and the log are what they were. *)
Theorem main_load_errors_abort (lower : pystr -> pystr) (env : Env) (w : World) :
  (leads_csv (disk w) = None -> main lower env w = (Raise FileNotFoundError, w))
  /\ (forall (good : list Row) (bad : Row) (rest : list Row),
        leads_csv (disk w) = Some (good ++ bad :: rest) ->
        Forall (fun row => Lead.missing_of row = []) good ->
        Lead.missing_of bad <> [] ->
        main lower env w =
          (Raise (ValueError (u "Missing fields in CSV row: "
                              ++ repr_fields (Lead.missing_of bad))), w))
  /\ (forall leads : list Lead.t,
        load_leads (leads_csv (disk w)) = Ok leads ->
        generated_json (disk w) = Some NotUtf8 ->
        main lower env w = (Raise UnicodeDecodeError, w))
  /\ (forall leads : list Lead.t,
        load_leads (leads_csv (disk w)) = Ok leads ->
        generated_json (disk w) = Some Malformed ->
        main lower env w = (Raise JSONDecodeError, w))
  /\ (forall (leads : list Lead.t) (v : json) (d : gmap pystr json),
        load_leads (leads_csv (disk w)) = Ok leads ->
        is_scalar v = true ->
        generated_json (disk w) = Some (Doc v)
        \/ (generated_json (disk w) = Some (Doc (JObj d)) /\ d !! u "generated" = Some v) ->
        main lower env w = (Raise TypeError, w))
  /\ (forall (leads : list Lead.t) (generated_entries : list GeneratedEntry.t),
        load_leads (leads_csv (disk w)) = Ok leads ->
        load_generated (generated_json (disk w)) = Ok generated_entries ->
        slugs_hashable generated_entries = false ->
        main lower env w = (Raise TypeError, w)).
Proof.
  split; [|split; [|split; [|split; [|split]]]].
  - intros Hcsv. apply main_load_leads_raises. by rewrite Hcsv.
  - intros good bad rest Hcsv Hgood Hbad. apply main_load_leads_raises.
    rewrite Hcsv. cbn [load_leads]. by apply from_rows_invalid.
  - intros leads Hleads Hledger. apply (main_load_generated_raises _ _ _ leads); [done|].
    by rewrite Hledger.
  - intros leads Hleads Hledger. apply (main_load_generated_raises _ _ _ leads); [done|].
    by rewrite Hledger.
  - intros leads v d Hleads Hscalar Hledger.
    apply (main_load_generated_raises _ _ _ leads); [done|].
    destruct Hledger as [->|[-> Hkey]].
    + by destruct v.
    + cbn [load_generated]. unfold dict_get. rewrite Hkey. by destruct v.
  - intros leads generated_entries Hleads Hentries Hhash.
    apply (main_select_raises _ _ _ leads generated_entries); [done..|].
    unfold select_batch. by rewrite (slug_set_unhashable _ Hhash).
Qed.

Lemma main_load_errors_abort_witness :
  main (fun s => s) quiet_env (mk_world (mk_disk None None false ∅) [])
  = (Raise FileNotFoundError, mk_world (mk_disk None None false ∅) [])
  /\ main (fun s => s) quiet_env
       (world_of [row_of_slug (u "A"); delete (u "offer") (row_of_slug (u "B"))]
          (Some Malformed))
     = (Raise (ValueError (u "Missing fields in CSV row: ['offer']")),
        world_of [row_of_slug (u "A"); delete (u "offer") (row_of_slug (u "B"))]
          (Some Malformed))
  /\ main (fun s => s) quiet_env (world_of [row_of_slug (u "A")] (Some NotUtf8))
     = (Raise UnicodeDecodeError, world_of [row_of_slug (u "A")] (Some NotUtf8))
  /\ main (fun s => s) quiet_env (world_of [row_of_slug (u "A")] (Some Malformed))
     = (Raise JSONDecodeError, world_of [row_of_slug (u "A")] (Some Malformed))
  /\ main (fun s => s) quiet_env
       (world_of [row_of_slug (u "A")] (Some (Doc (JObj {[ u "generated" := JNull ]}))))
     = (Raise TypeError,
        world_of [row_of_slug (u "A")] (Some (Doc (JObj {[ u "generated" := JNull ]}))))
  /\ main (fun s => s) quiet_env
       (world_of [row_of_slug (u "A")]
          (Some (Doc (payload [entry_of_slug (JArr [])]))))
     = (Raise TypeError,
        world_of [row_of_slug (u "A")] (Some (Doc (payload [entry_of_slug (JArr [])])))).
Proof.
  split; [|split; [|split; [|split; [|split]]]].
  - apply (proj1 (main_load_errors_abort _ _ _)). reflexivity.
  - rewrite (proj1 (proj2 (main_load_errors_abort (fun s => s) quiet_env
               (world_of [row_of_slug (u "A"); delete (u "offer") (row_of_slug (u "B"))]
                  (Some Malformed))))
               [row_of_slug (u "A")] (delete (u "offer") (row_of_slug (u "B"))) []).
    + vm_compute. reflexivity.
    + reflexivity.
    + constructor; [vm_compute; reflexivity|constructor].
    + vm_compute. discriminate.
  - apply (proj1 (proj2 (proj2 (main_load_errors_abort _ _ _)))
             [lead_of_slug (u "A")]); vm_compute; reflexivity.
  - apply (proj1 (proj2 (proj2 (proj2 (main_load_errors_abort _ _ _))))
             [lead_of_slug (u "A")]); vm_compute; reflexivity.
  - apply (proj1 (proj2 (proj2 (proj2 (proj2 (main_load_errors_abort _ _ _)))))
             [lead_of_slug (u "A")] JNull {[ u "generated" := JNull ]}).
    + vm_compute. reflexivity.
    + reflexivity.
    + right. split; [reflexivity|]. vm_compute. reflexivity.
  - apply (proj2 (proj2 (proj2 (proj2 (proj2 (main_load_errors_abort _ _ _)))))
             [lead_of_slug (u "A")] [entry_of_slug (JArr [])]); vm_compute; reflexivity.
Defined.

(** The three ways a run can go. *)
Lemma main_cases (lower : pystr -> pystr) (env : Env) (w : World) :
  (exists e, main lower env w = (Raise e, w))
  \/ (exists leads generated_entries fresh,
        load_leads (leads_csv (disk w)) = Ok leads
        /\ load_generated (generated_json (disk w)) = Ok generated_entries
        /\ select_batch leads generated_entries = Ok (fresh, [])
        /\ main lower env w =
             (Ok tt, mk_world (disk w) (log w ++ [Printed (u "No new leads to generate.")])))
  \/ (exists leads generated_entries fresh batch,
        load_leads (leads_csv (disk w)) = Ok leads
        /\ load_generated (generated_json (disk w)) = Ok generated_entries
        /\ select_batch leads generated_entries = Ok (fresh, batch)
        /\ batch <> []
        /\ batch_outcome lower env w generated_entries batch
             (fst (main lower env w)) (snd (main lower env w))).
Proof.
  destruct (load_leads (leads_csv (disk w))) as [leads|e] eqn:Hleads.
  2: { left. exists e. by apply main_load_leads_raises. }
  destruct (load_generated (generated_json (disk w))) as [generated_entries|e]
    eqn:Hentries.
  2: { left. exists e. by apply (main_load_generated_raises _ _ _ leads). }
  destruct (select_batch leads generated_entries) as [[fresh batch]|e] eqn:Hselect.
  2: { left. exists e. by apply (main_select_raises _ _ _ leads generated_entries). }
  destruct (decide (batch = [])) as [->|Hne].
  - right. left. exists leads, generated_entries, fresh. repeat (split; [done|]).
    by apply (main_empty_batch lower env w _ _ _ _ Hleads Hentries Hselect).
  - right. right. exists leads, generated_entries, fresh, batch.
    repeat (split; [done|]).
    by apply (main_batch_outcome lower env w leads _ fresh).
Qed.

Lemma batch_within_leads (leads : list Lead.t) (generated_entries : list GeneratedEntry.t)
    (fresh batch : list Lead.t) (P : Lead.t -> Prop) :
  select_batch leads generated_entries = Ok (fresh, batch) ->
  (forall lead, In lead leads -> P lead) ->
  Forall P batch.
Proof.
  intros (_ & -> & ->)%select_batch_inv Hall. apply Forall_forall.
  intros lead Hlead%subseteq_take. apply list_elem_of_filter in Hlead as [_ Hlead].
  by apply Hall, list_elem_of_In.
Qed.

Lemma after_failed_write_other (remains : option pystr) (loc other : pystr)
    (texts : gmap pystr pystr) :
  loc <> other -> after_failed_write remains loc texts !! other = texts !! other.
Proof.
  intros Hne. destruct remains as [partial|]; [|done].
  cbn [after_failed_write]. by rewrite lookup_insert_ne.
Qed.

(** X9: no run, whether it completes or raises, changes the CSV file; and
    a file other than the CSV file and the ledger is after the run what it
    was before, unless it is the file that the page path of a lead of the
    CSV file names: the path [OUTPUT_DIR / (slug + `.html`)] as [pathlib]
    joins it, which for the slug [./a] is the path of [pages/a.html] and
    for an absolute slug a path outside the pages directory. *)
Theorem main_leaves_csv_and_other_pages (lower : pystr -> pystr) (env : Env) (w : World) :
  leads_csv (disk (snd (main lower env w))) = leads_csv (disk w)
  /\ (forall loc : pystr,
        (forall leads lead,
            load_leads (leads_csv (disk w)) = Ok leads -> In lead leads ->
            locate env (path_str (joinpath (OUTPUT_DIR env) (Lead.slug lead ++ u ".html")))
            <> loc) ->
        files (disk (snd (main lower env w))) !! loc = files (disk w) !! loc)
  /\ path_str (joinpath (OUTPUT_DIR quiet_env) (u "./a" ++ u ".html"))
     = u "/srv/landing/pages/a.html"
  /\ path_str (joinpath (OUTPUT_DIR quiet_env) (u "/tmp/a" ++ u ".html"))
     = u "/tmp/a.html".
Proof.
  split; [|split; [|split; vm_compute; reflexivity]].
  all: destruct (main_cases lower env w)
    as [[e Hrun]|[(leads & entries & fresh & _ & _ & _ & Hrun)
                 |(leads & entries & fresh & batch & Hleads & _ & Hselect & _ & Hout)]].
  1-2, 4-5: by rewrite Hrun.
  - by destruct Hout.
  - assert (forall loc,
               (forall leads lead,
                   load_leads (leads_csv (disk w)) = Ok leads -> In lead leads ->
                   page_loc env lead <> loc) ->
               Forall (fun lead => page_loc env lead <> loc) batch) as Hbatch.
    { intros loc Hloc.
      apply (batch_within_leads leads entries fresh batch); [done|].
      intros lead Hlead. by apply (Hloc leads). }
    destruct Hout as [Hmk|n bad e remains Hmk Hbad Hdone Hfail
                     |n bad e Hmk Hbad Hdone Hfail|Hmk Hdone Hdata
                     |e remains Hmk Hdone Hdata Hio|Hmk Hdone Hdata Hio];
      intros loc Hloc; specialize (Hbatch loc Hloc);
      cbn [disk disk_with files].
    + reflexivity.
    + rewrite after_failed_write_other.
      * apply written_lookup_other. by apply Forall_take.
      * apply (proj1 (Forall_forall _ _) Hbatch). by apply list_elem_of_lookup_2 in Hbad.
    + apply written_lookup_other. by apply Forall_take.
    + by apply written_lookup_other.
    + by apply written_lookup_other.
    + by apply written_lookup_other.
Qed.

Lemma main_leaves_csv_and_other_pages_witness :
  files (disk (snd (main (fun s => s) quiet_env
                      (mk_world (mk_disk (Some [row_of_slug (u "./a")]) None true
                                   {[ u "/srv/landing/pages/index.html" := u "<html>" ]})
                         []))))
    !! u "/srv/landing/pages/index.html"
  = Some (u "<html>").
Proof.
  rewrite (proj1 (proj2 (main_leaves_csv_and_other_pages (fun s => s) quiet_env
             (mk_world (mk_disk (Some [row_of_slug (u "./a")]) None true
                          {[ u "/srv/landing/pages/index.html" := u "<html>" ]}) [])))
             (u "/srv/landing/pages/index.html")).
  - vm_compute. reflexivity.
  - intros leads lead Hleads Hlead. vm_compute in Hleads. injection Hleads as <-.
    destruct Hlead as [<-|[]]. vm_compute. discriminate.
Defined.

(** X10: the ledger file changes only through the [write_text] on it: a
    run that makes no such call, however it ends, leaves the ledger file
    as it was. *)
Theorem ledger_changes_only_by_its_write (lower : pystr -> pystr) (env : Env) (w : World) :
  ~ In (WroteText ledger_path) (new_events w (snd (main lower env w))) ->
  generated_json (disk (snd (main lower env w))) = generated_json (disk w).
Proof.
  destruct (main_cases lower env w)
    as [[e Hrun]|[(leads & entries & fresh & _ & _ & _ & Hrun)
                 |(leads & entries & fresh & batch & _ & _ & _ & _ & Hout)]].
  - by rewrite Hrun.
  - by rewrite Hrun.
  - destruct Hout as [Hmk|n bad e remains Hmk Hbad Hdone Hfail
                     |n bad e Hmk Hbad Hdone Hfail|Hmk Hdone Hdata
                     |e remains Hmk Hdone Hdata Hio|Hmk Hdone Hdata Hio];
      rewrite new_events_mk; intros Hnot; try reflexivity;
      destruct Hnot; right; apply in_app_iff; right; cbn [In]; tauto.
Qed.

Lemma ledger_changes_only_by_its_write_witness :
  generated_json
    (disk (snd (main (fun s => s) failing_env
                  (world_of [row_of_slug (u "C"); row_of_slug (u "D")]
                     (Some (Doc (JArr [])))))))
  = Some (Doc (JArr [])).
Proof.
  apply (ledger_changes_only_by_its_write (fun s => s) failing_env
           (world_of [row_of_slug (u "C"); row_of_slug (u "D")] (Some (Doc (JArr []))))).
  vm_compute. intros H. repeat (destruct H as [H|H]; [discriminate H|]). exact H.
Defined.

Lemma saved_ledger_covers_leads (leads : list Lead.t)
    (generated_entries : list GeneratedEntry.t) (now_str : pystr) :
  (length (fresh_spec leads generated_entries) <= BATCH_SIZE)%nat ->
  fresh_spec leads
    (generated_entries
     ++ map (new_entry now_str) (take BATCH_SIZE (fresh_spec leads generated_entries)))
  = [].
Proof.
  intros Hfits. rewrite take_ge by done. apply fresh_spec_nil_iff.
  intros lead Hlead. apply in_ledger_app.
  destruct (decide (in_ledger generated_entries lead)) as [|Hout]; [by left|].
  right. apply in_ledger_new_entries. apply (list_elem_of_fmap_2 Lead.slug).
  apply list_elem_of_filter. split; [done|]. by apply list_elem_of_In.
Qed.

(** X11: running twice in a row.  When the fresh leads of a run all fit
    into its batch and the run completes, a second run on the disk it left
    (whatever its environment) finds no new lead: it returns normally,
    prints the message that there are none and changes nothing on disk. *)
Theorem main_second_run_is_noop (lower lower' : pystr -> pystr) (env env' : Env)
    (w w' : World) (leads : list Lead.t) (generated_entries : list GeneratedEntry.t)
    (fresh batch : list Lead.t) :
  load_leads (leads_csv (disk w)) = Ok leads ->
  load_generated (generated_json (disk w)) = Ok generated_entries ->
  select_batch leads generated_entries = Ok (fresh, batch) ->
  (length fresh <= BATCH_SIZE)%nat ->
  main lower env w = (Ok tt, w') ->
  main lower' env' w' =
    (Ok tt, mk_world (disk w') (log w' ++ [Printed (u "No new leads to generate.")])).
Proof.
  intros Hleads Hentries Hselect Hfits Hrun.
  destruct (decide (batch = [])) as [->|Hne].
  - rewrite (main_empty_batch lower env w _ _ _ _ Hleads Hentries Hselect eq_refl) in Hrun.
    injection Hrun as <-.
    by apply (main_empty_batch lower' env' _ leads generated_entries fresh []).
  - pose proof (main_batch_outcome lower env w _ _ _ _ Hleads Hentries Hselect Hne)
      as Hout.
    rewrite Hrun in Hout. cbn [fst snd] in Hout.
    inversion Hout as [| | | | |Hmk Hdone Hdata Hio Hres Hw']. clear Hout.
    apply select_batch_inv in Hselect as (Hhash & -> & ->).
    eapply (main_empty_batch lower' env' _ leads); [done|apply load_generated_payload| |done].
    unfold saved_entries.
    rewrite select_batch_hashable by by apply slugs_hashable_app_new.
    by rewrite saved_ledger_covers_leads.
Qed.

Lemma main_second_run_is_noop_witness :
  main (fun s => s) failing_env (snd first_run) =
    (Ok tt, mk_world (disk (snd first_run))
                     (log (snd first_run) ++ [Printed (u "No new leads to generate.")])).
Proof.
  apply (main_second_run_is_noop (fun s => s) (fun s => s) quiet_env failing_env
           (world_of [row_of_slug (u "acme-plumbing")] None) (snd first_run)
           [lead_of_slug (u "acme-plumbing")] []
           [lead_of_slug (u "acme-plumbing")] [lead_of_slug (u "acme-plumbing")]).
  - vm_compute. reflexivity.
  - vm_compute. reflexivity.
  - vm_compute. reflexivity.
  - vm_compute. repeat constructor.
  - vm_compute. reflexivity.
Defined.

Lemma written_keeps (lower : pystr -> pystr) (env : Env) (batch : list Lead.t)
    (loc : pystr) :
  forall (k : nat) (texts : gmap pystr pystr),
    is_Some (texts !! loc) -> is_Some (written lower env k batch texts !! loc).
Proof.
  induction batch as [|lead rest IH]; intros k texts Hsome; [done|].
  cbn [written]. apply IH. apply lookup_insert_is_Some'. by right.
Qed.

Lemma written_has_page (lower : pystr -> pystr) (env : Env) (batch : list Lead.t)
    (lead : Lead.t) :
  forall (k : nat) (texts : gmap pystr pystr),
    In lead batch -> is_Some (written lower env k batch texts !! page_loc env lead).
Proof.
  induction batch as [|first rest IH]; intros k texts Hlead; [destruct Hlead|].
  cbn [written]. destruct Hlead as [->|Hlead].
  - apply written_keeps. apply lookup_insert_is_Some'. by left.
  - by apply IH.
Qed.

Lemma written_last (lower : pystr -> pystr) (env : Env) (batch : list Lead.t)
    (loc : pystr) :
  forall (k : nat) (texts : gmap pystr pystr) (j : nat) (lead : Lead.t),
    batch !! j = Some lead ->
    page_loc env lead = loc ->
    exists (i : nat) (last : Lead.t),
      batch !! i = Some last /\ (j <= i)%nat /\ page_loc env last = loc
      /\ Forall (fun later => page_loc env later <> loc) (drop (S i) batch)
      /\ written lower env k batch texts !! loc
         = Some (render_page lower (utcnow_page env (k + i)) last).
Proof.
  induction batch as [|first rest IH]; intros k texts j lead Hj Hloc; [done|].
  destruct (decide (Exists (fun later => page_loc env later = loc) rest)) as [Hlater|Hnone].
  - apply Exists_exists in Hlater as (later & Hin & Hsame).
    apply list_elem_of_lookup_1 in Hin as [i' Hi'].
    destruct (IH (S k) (<[page_loc env first := render_page lower (utcnow_page env k) first]>
                          texts) i' later Hi' Hsame)
      as (i & last & Hi & Hle & Hlast & Hafter & Hfile).
    exists (S i), last. split; [done|]. split.
    + destruct j as [|j']; [lia|]. cbn in Hj.
      destruct (decide (j' <= i)%nat) as [|Hgt]; [lia|]. exfalso.
      apply (proj1 (Forall_forall _ _) Hafter lead); [|done].
      apply (list_elem_of_lookup_2 _ (j' - S i)). rewrite lookup_drop.
      by replace (S i + (j' - S i))%nat with j' by lia.
    + split; [done|]. split; [done|]. cbn [written]. rewrite Hfile.
      by replace (S k + i)%nat with (k + S i)%nat by lia.
  - apply not_Exists_Forall in Hnone; [|intros later; apply _].
    assert (Forall (fun later => page_loc env later <> loc) rest) as Hrest.
    { eapply Forall_impl; [exact Hnone|]. intros later Hne. exact Hne. }
    destruct j as [|j'].
    + injection Hj as ->. exists 0%nat, lead. split; [done|]. split; [lia|].
      split; [done|]. split; [done|]. cbn [written].
      rewrite written_lookup_other by done.
      rewrite <- Hloc. by rewrite lookup_insert_eq, Nat.add_0_r.
    + exfalso. cbn in Hj.
      apply (proj1 (Forall_forall _ _) Hrest lead); [|done].
      by apply (list_elem_of_lookup_2 _ j').
Qed.

(** X12: after a run that completes, the pages and the ledger agree on the
    batch: every lead of the batch has its slug in the ledger that the file
    now holds, and the file that its page path names holds the rendering
    of the last lead of the batch whose page path names this file: of the
    lead itself unless a later lead of the batch has a page path that
    names the same file, as the slugs [a] and [./a] have. *)
Theorem completed_run_pages_match_ledger (lower : pystr -> pystr) (env : Env)
    (w w' : World) (leads : list Lead.t) (generated_entries : list GeneratedEntry.t)
    (fresh batch : list Lead.t) :
  load_leads (leads_csv (disk w)) = Ok leads ->
  load_generated (generated_json (disk w)) = Ok generated_entries ->
  select_batch leads generated_entries = Ok (fresh, batch) ->
  batch <> [] ->
  main lower env w = (Ok tt, w') ->
  exists saved,
    load_generated (generated_json (disk w')) = Ok saved
    /\ (forall (j : nat) (lead : Lead.t),
          batch !! j = Some lead ->
          in_ledger saved lead
          /\ (exists (i : nat) (last : Lead.t),
                batch !! i = Some last /\ (j <= i)%nat
                /\ page_loc env last = page_loc env lead
                /\ Forall (fun later => page_loc env later <> page_loc env lead)
                     (drop (S i) batch)
                /\ files (disk w') !! page_loc env lead
                   = Some (render_page lower (utcnow_page env i) last))
          /\ (Forall (fun later => page_loc env later <> page_loc env lead)
                (drop (S j) batch) ->
              files (disk w') !! page_loc env lead
              = Some (render_page lower (utcnow_page env j) lead))).
Proof.
  intros Hleads Hentries Hselect Hne Hrun.
  pose proof (main_batch_outcome lower env w _ _ _ _ Hleads Hentries Hselect Hne) as Hout.
  rewrite Hrun in Hout. cbn [fst snd] in Hout.
  inversion Hout as [| | | | |Hmk Hdone Hdata Hio Hres Hw']. clear Hout.
  eexists. cbn [disk disk_with generated_json files].
  split; [apply load_generated_payload|].
  intros j lead Hj. split; [|split].
  - apply in_ledger_app. right. apply in_ledger_new_entries.
    apply (list_elem_of_fmap_2 Lead.slug). by apply list_elem_of_lookup_2 in Hj.
  - destruct (written_last lower env batch (page_loc env lead) 0 (files (disk w)) j lead
                Hj eq_refl) as (i & last & Hi & Hle & Hlast & Hafter & Hfile).
    by exists i, last.
  - intros Hlater. by rewrite (written_lookup lower env batch 0 j _ lead Hj Hlater).
Qed.

Lemma completed_run_pages_match_ledger_witness :
  exists saved,
    load_generated
      (generated_json
         (disk (snd (main (fun s => s) quiet_env
                       (world_of [row_of_slug (u "a"); row_of_slug (u "./a")] None)))))
    = Ok saved
    /\ in_ledger saved (lead_of_slug (u "a"))
    /\ in_ledger saved (lead_of_slug (u "./a"))
    /\ files (disk (snd (main (fun s => s) quiet_env
                           (world_of [row_of_slug (u "a"); row_of_slug (u "./a")] None))))
         !! u "/srv/landing/pages/a.html"
       = Some (render_page (fun s => s) late (lead_of_slug (u "./a"))).
Proof.
  destruct (completed_run_pages_match_ledger (fun s => s) quiet_env
              (world_of [row_of_slug (u "a"); row_of_slug (u "./a")] None)
              (snd (main (fun s => s) quiet_env
                      (world_of [row_of_slug (u "a"); row_of_slug (u "./a")] None)))
              [lead_of_slug (u "a"); lead_of_slug (u "./a")] []
              [lead_of_slug (u "a"); lead_of_slug (u "./a")]
              [lead_of_slug (u "a"); lead_of_slug (u "./a")])
    as (saved & Hsaved & Hbatch).
  - vm_compute. reflexivity.
  - vm_compute. reflexivity.
  - vm_compute. reflexivity.
  - discriminate.
  - vm_compute. reflexivity.
  - exists saved. split; [exact Hsaved|].
    destruct (Hbatch 0%nat (lead_of_slug (u "a")) eq_refl) as (Hfirst & _ & _).
    destruct (Hbatch 1%nat (lead_of_slug (u "./a")) eq_refl) as (Hsecond & _ & Hpage).
    split; [exact Hfirst|]. split; [exact Hsecond|].
    apply Hpage. constructor.
Defined.

(** ** The scenarios of the specification *)

Example first_run_completes : fst first_run = Ok tt.
Proof. vm_compute. reflexivity. Qed.

Example first_run_ledger :
  generated_json (disk (snd first_run)) =
    Some (Doc (payload [GeneratedEntry.mk (JStr (u "acme-plumbing"))
                          (JStr (u "2024-03-07T01:02:03Z")) (JStr (u "data/leads.csv"))])).
Proof. vm_compute. reflexivity. Qed.

Example first_run_page :
  pages_dir (disk (snd first_run)) = true
  /\ files (disk (snd first_run)) =
       {[ u "/srv/landing/pages/acme-plumbing.html" :=
            render_page (fun s => s) late (lead_of_slug (u "acme-plumbing")) ]}
  /\ contains (hero (lead_of_slug (u "acme-plumbing")))
       (u "<h1>Acme Plumbing – Klempnerei in Berlin</h1>").
Proof.
  split; [reflexivity|]. split; [vm_compute; reflexivity|].
  eexists (u "<section class=`hero`>" ++ nl ++ u "  "), _. vm_compute. reflexivity.
Qed.

Example first_run_log :
  log (snd first_run) =
    [MadeDir (u "pages"); WroteText (u "/srv/landing/pages/acme-plumbing.html");
     Printed (u "Generated pages/acme-plumbing.html");
     MadeDir (u "data"); WroteText (u "data/generated.json");
     Printed (u "Saved log to data/generated.json")].
Proof. vm_compute. reflexivity. Qed.

Example second_run_is_noop :
  main (fun s => s) quiet_env (mk_world (disk (snd first_run)) []) =
    (Ok tt, mk_world (disk (snd first_run)) [Printed (u "No new leads to generate.")]).
Proof. vm_compute. reflexivity. Qed.

(** Slugs that are not plain file names. *)

Example joined_paths :
  path_str (joinpath (OUTPUT_DIR quiet_env) (u "./a.html")) = u "/srv/landing/pages/a.html"
  /\ path_str (joinpath (OUTPUT_DIR quiet_env) (u "a//b/./c.html"))
     = u "/srv/landing/pages/a/b/c.html"
  /\ path_str (joinpath (OUTPUT_DIR quiet_env) (u "../x.html"))
     = u "/srv/landing/pages/../x.html"
  /\ path_str (joinpath (OUTPUT_DIR quiet_env) (u "/tmp/x.html")) = u "/tmp/x.html"
  /\ path_str (joinpath (OUTPUT_DIR quiet_env) (u "//tmp/x.html")) = u "//tmp/x.html"
  /\ path_str (joinpath (OUTPUT_DIR quiet_env) (u "///tmp/x.html")) = u "/tmp/x.html".
Proof. do 5 (split; [vm_compute; reflexivity|]). vm_compute. reflexivity. Qed.

Example shown_paths :
  relative_to_root quiet_env (joinpath (OUTPUT_DIR quiet_env) (u "./a.html"))
  = Ok (u "pages/a.html")
  /\ relative_to_root quiet_env (joinpath (OUTPUT_DIR quiet_env) (u "../x.html"))
     = Ok (u "pages/../x.html")
  /\ relative_to_root quiet_env (joinpath (OUTPUT_DIR quiet_env) (u "/srv/landing/x.html"))
     = Ok (u "x.html")
  /\ relative_to_root quiet_env (joinpath (OUTPUT_DIR quiet_env) (u "/tmp/x.html"))
     = Raise (ValueError (not_in_subpath (u "/tmp/x.html"))).
Proof. do 3 (split; [vm_compute; reflexivity|]). vm_compute. reflexivity. Qed.

Example dot_slash_slug_overwrites_page :
  main (fun s => s) quiet_env
    (mk_world (mk_disk (Some [row_of_slug (u "./a")]) None true
                 {[ u "/srv/landing/pages/a.html" := u "old" ]}) [])
  = (Ok tt,
     mk_world
       (mk_disk (Some [row_of_slug (u "./a")])
          (Some (Doc (payload [GeneratedEntry.mk (JStr (u "./a"))
                                 (JStr (u "2024-03-07T01:02:03Z"))
                                 (JStr (u "data/leads.csv"))])))
          true
          {[ u "/srv/landing/pages/a.html" :=
               render_page (fun s => s) late (lead_of_slug (u "./a")) ]})
       [MadeDir (u "pages"); WroteText (u "/srv/landing/pages/a.html");
        Printed (u "Generated pages/a.html");
        MadeDir (u "data"); WroteText (u "data/generated.json");
        Printed (u "Saved log to data/generated.json")]).
Proof. vm_compute. reflexivity. Qed.

Example absolute_slug_raises_after_the_write :
  main (fun s => s) quiet_env
    (world_of [row_of_slug (u "a"); row_of_slug (u "/tmp/x"); row_of_slug (u "b")] None)
  = (Raise (ValueError (not_in_subpath (u "/tmp/x.html"))),
     mk_world
       (mk_disk (Some [row_of_slug (u "a"); row_of_slug (u "/tmp/x"); row_of_slug (u "b")])
          None true
          {[ u "/srv/landing/pages/a.html" :=
               render_page (fun s => s) late (lead_of_slug (u "a"));
             u "/tmp/x.html" :=
               render_page (fun s => s) late (lead_of_slug (u "/tmp/x")) ]})
       [MadeDir (u "pages"); WroteText (u "/srv/landing/pages/a.html");
        Printed (u "Generated pages/a.html"); WroteText (u "/tmp/x.html")]).
Proof. vm_compute. reflexivity. Qed.

Example surrogate_in_ledger_breaks_the_save :
  main (fun s => s) quiet_env
    (world_of [row_of_slug (u "a")] (Some (Doc (payload [surrogate_entry]))))
  = (Raise UnicodeEncodeError,
     mk_world
       (mk_disk (Some [row_of_slug (u "a")]) (Some Malformed) true
          {[ u "/srv/landing/pages/a.html" :=
               render_page (fun s => s) late (lead_of_slug (u "a")) ]})
       [MadeDir (u "pages"); WroteText (u "/srv/landing/pages/a.html");
        Printed (u "Generated pages/a.html");
        MadeDir (u "data"); WroteText (u "data/generated.json")]).
Proof. vm_compute. reflexivity. Qed.

Example nul_in_slug_raises_before_the_write :
  main (fun s => s) quiet_env (world_of [row_of_slug [97; 0]] None)
  = (Raise (ValueError (u "embedded null byte")),
     mk_world (mk_disk (Some [row_of_slug [97; 0]]) None true ∅)
       [MadeDir (u "pages"); WroteText ([47] ++ u "srv/landing/pages/a" ++ [0] ++ u ".html")]).
Proof. vm_compute. reflexivity. Qed.

Example decode_literal : u "a`ö–" = [97; 34; 246; 8211].
Proof. reflexivity. Qed.

Example strip_both_ends : strip ([32; 9; 160] ++ u "a b" ++ [10; 8195]) = u "a b".
Proof. reflexivity. Qed.

Example timestamp_format : strftime_timestamp early = u "2024-03-07T01:02:03Z".
Proof. reflexivity. Qed.

Example date_format : strftime_date late = u "07.03.2024".
Proof. reflexivity. Qed.

Example missing_fields_message :
  Lead.from_row (<[u "city" := None]> (delete (u "offer") (row_of_slug (u "a")))) =
    Raise (ValueError (u "Missing fields in CSV row: ['city', 'offer']")).
Proof. vm_compute. reflexivity. Qed.
